(** * MB Secure client-side scripts: a shallow embedding and its properties

    The development follows the scripts of the site:
    - [JsString]      the String.prototype methods the scripts call;
    - [SiteConfig]    [getBasePath] of the site configuration script;
    - [MBUtil]        [escapeHtml] and [navList] of the utility script;
    - [Panel]         [panel] of the utility script, as a state machine;
    - [ScrollSpy]     the homepage scroll-spy of [assets/js/nav.js];
    - [BlogMeta]      the JSON-LD emitter for blog posts.

    Strings are [string]s (the characters the scripts inspect are ASCII),
    DOM class lists are finite sets of class names, pixel coordinates that
    the browser reports as floating-point numbers are exact rationals. *)

From Stdlib Require Import String Ascii List ZArith QArith Lia Lqa Bool DecimalString.
From stdpp Require Import gmap strings list.
Import ListNotations.
Open Scope string_scope.

(* ===================================================================== *)
(** * Part I: the embedding                                              *)
(* ===================================================================== *)

(** ** String.prototype methods used by the scripts *)
Module JsString.

(** [s.split(sep)] for a one-character separator. *)
Fixpoint split (sep : ascii) (s : string) : list string :=
  match s with
  | EmptyString => [EmptyString]
  | String c rest =>
      if Ascii.eqb c sep then EmptyString :: split sep rest
      else match split sep rest with
           | piece :: pieces => String c piece :: pieces
           | [] => [String c EmptyString]
           end
  end.

(** [Boolean(s)] on a string: the empty string is the only falsy one. *)
Definition truthy (s : string) : bool := negb (String.eqb s "").

(** [s.endsWith(suffix)]: some tail of [s] is [suffix]. *)
Fixpoint endsWith (s suffix : string) : bool :=
  if String.eqb s suffix then true
  else match s with
       | EmptyString => false
       | String _ rest => endsWith rest suffix
       end.

(** [s.indexOf(c) !== -1] for a character [c]. *)
Fixpoint hasChar (c : ascii) (s : string) : bool :=
  match s with
  | EmptyString => false
  | String d rest => Ascii.eqb d c || hasChar c rest
  end.

(** Number of occurrences of the character [c]. *)
Fixpoint countChar (c : ascii) (s : string) : nat :=
  match s with
  | EmptyString => 0
  | String d rest => (if Ascii.eqb d c then 1 else 0) + countChar c rest
  end.

(** [s.replace(/c/g, by)] for a one-character pattern. *)
Fixpoint replaceAll (c : ascii) (by_ : string) (s : string) : string :=
  match s with
  | EmptyString => EmptyString
  | String d rest =>
      if Ascii.eqb d c then by_ ++ replaceAll c by_ rest
      else String d (replaceAll c by_ rest)
  end.

End JsString.

(** ** Number comparisons used by the scripts *)
Module JsNumber.

(** [x < y] *)
Definition Qltb (x y : Q) : bool := negb (Qle_bool y x).

(** [x >= y] *)
Definition Qgeb (x y : Q) : bool := Qle_bool y x.

End JsNumber.

(** ** Site configuration script: [getBasePath] *)
Module SiteConfig.
Import JsString.

(** The two fields of [window.location] that [getBasePath] reads. *)
Record Location := { pathname : string; hostname : string }.

(** [path.split('/').filter(Boolean)] *)
Definition pathSegments (path : string) : list string :=
  List.filter truthy (split "/" path).

(** [hostname.endsWith('.github.io') && segments.length > 0 &&
    segments[0] !== 'index.html'] *)
Definition isGitHubProjectSite (host : string) (segments : list string) : bool :=
  endsWith host ".github.io" &&
  match segments with
  | [] => false
  | first :: _ => negb (String.eqb first "index.html")
  end.

(** [path.endsWith('/') && path !== '/'] *)
Definition isInDirectory (path : string) : bool :=
  endsWith path "/" && negb (String.eqb path "/").

(** [Array(depth).fill('..').join('/') + '/'] *)
Definition upPrefix (depth : nat) : string :=
  String.concat "/" (repeat ".." depth) ++ "/".

Definition getBasePath (loc : Location) : string :=
  let path := pathname loc in
  let segments := pathSegments path in
  let segments :=
    if isGitHubProjectSite (hostname loc) segments
    then drop 1 segments          (* segments.slice(1) *)
    else segments in
  let inDir := isInDirectory path in
  if (length segments =? 0)%nat || ((length segments =? 1)%nat && negb inDir)
  then ""
  else
    let depth := if inDir then length segments else (length segments - 1)%nat in
    upPrefix depth.

End SiteConfig.

(** ** Utility script: [escapeHtml] and [navList] *)
Module MBUtil.
Import JsString.

(** The values [escapeHtml] is called with. *)
Inductive jsval :=
| JsNull
| JsUndefined
| JsStr (s : string).

(** Truthiness, as [!str] tests it. *)
Definition jsTruthy (v : jsval) : bool :=
  match v with
  | JsStr s => truthy s
  | JsNull | JsUndefined => false
  end.

Definition dquote : ascii := "034"%char.
Definition squote : ascii := "039"%char.
Definition DQ : string := String dquote EmptyString.

(** [String(v)] *)
Definition toString (v : jsval) : string :=
  match v with
  | JsStr s => s
  | JsNull => "null"
  | JsUndefined => "undefined"
  end.

(** [escapeHtml]: the early return on a falsy argument, then the five
    replacements in source order. *)
Definition escapeHtml (str : jsval) : string :=
  if negb (jsTruthy str) then ""
  else
    replaceAll squote "&#39;"
      (replaceAll dquote "&quot;"
        (replaceAll ">" "&gt;"
          (replaceAll "<" "&lt;"
            (replaceAll "&" "&amp;" (toString str))))).

(** One [a] element of the nav, as [navList] reads it: its attributes
    ([getAttribute] gives null for an absent one), its text content and
    the tag names of its ancestors below the nav, nearest first. *)
Record NavLink := {
  link_href : option string;
  link_target : option string;
  link_textContent : string;
  link_ancestors : list string
}.

(** [x || ''] on the result of [getAttribute]. *)
Definition orEmpty (o : option string) : string :=
  match o with
  | Some s => s
  | None => ""
  end.

(** The parent walk of [navList]: one more for every LI ancestor. *)
Fixpoint countLI (ancestors : list string) : nat :=
  match ancestors with
  | [] => 0
  | tag :: up => (if String.eqb tag "LI" then 1 else 0) + countLI up
  end.

(** Number to string conversion of [+] on a non-negative integer. *)
Definition showNat (n : nat) : string :=
  DecimalString.NilEmpty.string_of_uint (Nat.to_uint n).

(** The string pushed for one link. *)
Definition linkMarkup (link : NavLink) : string :=
  let indent := Nat.max 0 (countLI (link_ancestors link) - 1) in
  let href := orEmpty (link_href link) in
  let target := orEmpty (link_target link) in
  "<a " ++
    "class=" ++ DQ ++ "link depth-" ++ showNat indent ++ DQ ++
    (if truthy target then " target=" ++ DQ ++ escapeHtml (JsStr target) ++ DQ else "") ++
    (if truthy href then " href=" ++ DQ ++ escapeHtml (JsStr href) ++ DQ else "") ++
  ">" ++
    "<span class=" ++ DQ ++ "indent-" ++ showNat indent ++ DQ ++ "></span>" ++
    escapeHtml (JsStr (link_textContent link)) ++
  "</a>".

(** [navList(nav)], over the links [nav.querySelectorAll('a')] returns. *)
Definition navList (links : list NavLink) : string :=
  String.concat "" (map linkMarkup links).

End MBUtil.

(** ** Utility script: [panel]

    The closure [panel(element, userConfig)] creates is a state machine over
    what its listeners read and write: the class list of [config.target],
    the two touch-tracking variables, the pending cleanup timers, the
    scroll position of the panel, and the navigations it starts. *)
Module Panel.
Import JsString JsNumber.

Record Config := {
  delay : Z;
  hideOnClick : bool;
  hideOnEscape : bool;
  hideOnSwipe : bool;
  resetScroll : bool;
  resetForms : bool;
  side : option string;          (* null, or the string given *)
  visibleClass : string
}.

(** The options a caller may pass; each one is present or not. *)
Record UserConfig := {
  u_delay : option Z;
  u_hideOnClick : option bool;
  u_hideOnEscape : option bool;
  u_hideOnSwipe : option bool;
  u_resetScroll : option bool;
  u_resetForms : option bool;
  u_side : option (option string);
  u_visibleClass : option string
}.

(** [Object.assign({ defaults }, userConfig)] *)
Definition assignConfig (u : UserConfig) : Config := {|
  delay := default 0%Z (u_delay u);
  hideOnClick := default false (u_hideOnClick u);
  hideOnEscape := default false (u_hideOnEscape u);
  hideOnSwipe := default false (u_hideOnSwipe u);
  resetScroll := default false (u_resetScroll u);
  resetForms := default false (u_resetForms u);
  side := default None (u_side u);
  visibleClass := default "visible" (u_visibleClass u)
|}.

(** The options the main script passes for the nav panel. *)
Definition navPanelConfig : Config :=
  assignConfig
    {| u_delay := Some 0%Z; u_hideOnClick := Some true; u_hideOnEscape := None;
       u_hideOnSwipe := Some true; u_resetScroll := Some true;
       u_resetForms := Some true; u_side := Some (Some "right");
       u_visibleClass := Some "navPanel-visible" |}.

Record World := {
  targetClasses : gset string;   (* config.target.classList *)
  touchPosX : option Q;          (* null until a touch starts *)
  touchPosY : option Q;
  timers : list Z;               (* delays of the pending cleanup callbacks *)
  scrollTop : Q;                 (* element.scrollTop *)
  formResets : nat;              (* rounds of form.reset() performed *)
  opened : list string;          (* window.open(href) calls *)
  locationHref : option string   (* last assignment to window.location.href *)
}.

Definition withClasses (cs : gset string) (w : World) : World :=
  {| targetClasses := cs; touchPosX := touchPosX w; touchPosY := touchPosY w;
     timers := timers w; scrollTop := scrollTop w; formResets := formResets w;
     opened := opened w; locationHref := locationHref w |}.

Definition withTouch (x y : option Q) (w : World) : World :=
  {| targetClasses := targetClasses w; touchPosX := x; touchPosY := y;
     timers := timers w; scrollTop := scrollTop w; formResets := formResets w;
     opened := opened w; locationHref := locationHref w |}.

Definition withTimers (ts : list Z) (w : World) : World :=
  {| targetClasses := targetClasses w; touchPosX := touchPosX w;
     touchPosY := touchPosY w; timers := ts; scrollTop := scrollTop w;
     formResets := formResets w; opened := opened w;
     locationHref := locationHref w |}.

Definition withScrollTop (q : Q) (w : World) : World :=
  {| targetClasses := targetClasses w; touchPosX := touchPosX w;
     touchPosY := touchPosY w; timers := timers w; scrollTop := q;
     formResets := formResets w; opened := opened w;
     locationHref := locationHref w |}.

Definition withFormResets (n : nat) (w : World) : World :=
  {| targetClasses := targetClasses w; touchPosX := touchPosX w;
     touchPosY := touchPosY w; timers := timers w; scrollTop := scrollTop w;
     formResets := n; opened := opened w; locationHref := locationHref w |}.

Definition withOpened (hrefs : list string) (w : World) : World :=
  {| targetClasses := targetClasses w; touchPosX := touchPosX w;
     touchPosY := touchPosY w; timers := timers w; scrollTop := scrollTop w;
     formResets := formResets w; opened := hrefs;
     locationHref := locationHref w |}.

Definition withLocation (href : string) (w : World) : World :=
  {| targetClasses := targetClasses w; touchPosX := touchPosX w;
     touchPosY := touchPosY w; timers := timers w; scrollTop := scrollTop w;
     formResets := formResets w; opened := opened w;
     locationHref := Some href |}.

(** DOMTokenList methods on the class list of the target. *)
Definition contains (cs : gset string) (c : string) : bool := bool_decide (c ∈ cs).
Definition remove (cs : gset string) (c : string) : gset string := cs ∖ {[c]}.
Definition add (cs : gset string) (c : string) : gset string := cs ∪ {[c]}.
Definition toggle (cs : gset string) (c : string) : gset string :=
  if contains cs c then remove cs c else add cs c.

(** The panel is shown exactly when the target carries [visibleClass]. *)
Definition visible (cfg : Config) (w : World) : bool :=
  contains (targetClasses w) (visibleClass cfg).

(** The two flags of an event that the listeners set. *)
Record Event := { defaultPrevented : bool; propagationStopped : bool }.

Definition freshEvent : Event :=
  {| defaultPrevented := false; propagationStopped := false |}.
Definition preventDefault (e : Event) : Event :=
  {| defaultPrevented := true; propagationStopped := propagationStopped e |}.
Definition stopPropagation (e : Event) : Event :=
  {| defaultPrevented := defaultPrevented e; propagationStopped := true |}.

(** [hide(event)]; [event] is [None] for a call without argument. *)
Definition hide (cfg : Config) (event : option Event) (w : World)
  : World * option Event :=
  if negb (contains (targetClasses w) (visibleClass cfg)) then (w, event)
  else
    let event := option_map (fun e => stopPropagation (preventDefault e)) event in
    let w := withClasses (remove (targetClasses w) (visibleClass cfg)) w in
    let w := withTimers (timers w ++ [delay cfg]) w in
    (w, event).

(** The callback [hide] hands to [setTimeout]. *)
Definition cleanup (cfg : Config) (w : World) : World :=
  let w := if resetScroll cfg then withScrollTop 0%Q w else w in
  if resetForms cfg then withFormResets (S (formResets w)) w else w.

(** The oldest pending timer fires. *)
Definition fireTimer (cfg : Config) (w : World) : World :=
  match timers w with
  | [] => w
  | _ :: pending => cleanup cfg (withTimers pending w)
  end.

(** *** Click listeners *)

Record Anchor := { a_href : option string; a_target : option string }.

(** A click, as the listeners see it: whether its target lies inside the
    panel element, and the [a] elements among the target and its
    ancestors, nearest first. *)
Record Click := { insidePanel : bool; anchorChain : list Anchor }.

(** [event.target.closest('a')] *)
Definition closestAnchor (c : Click) : option Anchor := head (anchorChain c).

Definition isToggleAnchor (id : string) (a : Anchor) : bool :=
  match a_href a with
  | Some h => String.eqb h ("#" ++ id)
  | None => false
  end.

(** [event.target.closest('a[href=#id]')] *)
Definition closestToggle (id : string) (c : Click) : option Anchor :=
  List.find (isToggleAnchor id) (anchorChain c).

(** What a listener works on: the world and the event being dispatched. *)
Definition Dispatch : Type := World * Event.

(** [hide(event)] from inside a listener. *)
Definition hideOn (cfg : Config) (d : Dispatch) : Dispatch :=
  let '(w, e) := d in
  let '(w', e') := hide cfg (Some e) w in
  (w', default e e').

(** Listener on the panel, registered when [hideOnClick] is set: follow a
    link of the panel that has a real destination. *)
Definition onPanelLinkClick (id : string) (c : Click) (d : Dispatch) : Dispatch :=
  let '(w, e) := d in
  match closestAnchor c with
  | None => d
  | Some link =>
      let href := a_href link in
      if negb (truthy (default "" href))
         || String.eqb (default "" href) "#"
         || String.eqb (default "" href) ""
         || String.eqb (default "" href) ("#" ++ id)
      then d
      else
        let e := stopPropagation (preventDefault e) in
        if bool_decide (a_target link = Some "_blank")
        then (withOpened (opened w ++ [default "" href]) w, e)
        else (withLocation (default "" href) w, e)
  end.

(** Listener on the panel: events do not bubble out of it. *)
Definition onPanelStop (d : Dispatch) : Dispatch :=
  let '(w, e) := d in (w, stopPropagation e).

(** Listener on the panel: an anchor to the panel id inside it hides. *)
Definition onPanelToggleClick (cfg : Config) (id : string) (c : Click)
    (d : Dispatch) : Dispatch :=
  let '(w, e) := d in
  match closestToggle id c with
  | Some _ =>
      (withClasses (remove (targetClasses w) (visibleClass cfg)) w,
       stopPropagation (preventDefault e))
  | None => d
  end.

(** Listener on the body: an anchor to the panel id toggles. *)
Definition onBodyToggleClick (cfg : Config) (id : string) (c : Click)
    (d : Dispatch) : Dispatch :=
  let '(w, e) := d in
  match closestToggle id c with
  | Some _ =>
      (withClasses (toggle (targetClasses w) (visibleClass cfg)) w,
       stopPropagation (preventDefault e))
  | None => d
  end.

(** Listener on the body (click and touchend): anything else hides. *)
Definition onBodyHide (cfg : Config) (id : string) (c : Click)
    (d : Dispatch) : Dispatch :=
  match closestToggle id c with
  | Some _ => d
  | None => hideOn cfg d
  end.

(** The click listeners of the panel element, in registration order. *)
Definition panelClick (cfg : Config) (id : string) (c : Click)
    (d : Dispatch) : Dispatch :=
  let d := if hideOnClick cfg then onPanelLinkClick id c d else d in
  let d := onPanelStop d in
  onPanelToggleClick cfg id c d.

(** The click listeners of the body, in registration order. *)
Definition bodyClick (cfg : Config) (id : string) (c : Click)
    (d : Dispatch) : Dispatch :=
  onBodyHide cfg id c (onBodyToggleClick cfg id c d).

(** A click bubbles from its target: through the panel when the target is
    inside it, then to the body unless propagation was stopped. *)
Definition dispatchClick (cfg : Config) (id : string) (c : Click)
    (w : World) : Dispatch :=
  if insidePanel c then
    let d := panelClick cfg id c (w, freshEvent) in
    if propagationStopped (snd d) then d else bodyClick cfg id c d
  else bodyClick cfg id c (w, freshEvent).

Definition click (cfg : Config) (id : string) (c : Click) (w : World) : World :=
  fst (dispatchClick cfg id c w).

(** [n] clicks in a row. *)
Fixpoint clicks (cfg : Config) (id : string) (c : Click) (n : nat)
    (w : World) : World :=
  match n with
  | O => w
  | S m => clicks cfg id c m (click cfg id c w)
  end.

(** A [touchend] reaches the body listener only from outside the panel. *)
Definition dispatchTouchEnd (cfg : Config) (id : string) (c : Click)
    (w : World) : Dispatch :=
  if insidePanel c then onPanelStop (w, freshEvent)
  else onBodyHide cfg id c (w, freshEvent).

(** The [keydown] listener on the window, registered when [hideOnEscape]
    is set. *)
Definition dispatchKeyDown (cfg : Config) (keyCode : Z) (w : World) : Dispatch :=
  if hideOnEscape cfg && (keyCode =? 27)%Z then hideOn cfg (w, freshEvent)
  else (w, freshEvent).

(** *** Touch listeners *)

(** [event.touches[0]] *)
Record Touch := { pageX : Q; pageY : Q }.

(** [element.offsetHeight] and [element.scrollHeight] *)
Record Geometry := { offsetHeight : Z; scrollHeight : Z }.

Definition onTouchStart (t : Touch) (w : World) : World :=
  withTouch (Some (pageX t)) (Some (pageY t)) w.

(** The [switch (config.side)] of the swipe test, with its two
    constants [boundary = 20] and [delta = 50]. *)
Definition swipeResult (side : option string) (diffX diffY : Q) : bool :=
  let boundary := 20%Q in
  let delta := 50%Q in
  match side with
  | None => false
  | Some s =>
      if String.eqb s "left" then
        (Qltb diffY boundary && Qltb (- boundary) diffY) && Qltb delta diffX
      else if String.eqb s "right" then
        (Qltb diffY boundary && Qltb (- boundary) diffY) && Qltb diffX (- delta)
      else if String.eqb s "top" then
        (Qltb diffX boundary && Qltb (- boundary) diffX) && Qltb delta diffY
      else if String.eqb s "bottom" then
        (Qltb diffX boundary && Qltb (- boundary) diffX) && Qltb diffY (- delta)
      else false
  end.

(** The scroll-containment test at the end of the touchmove listener. *)
Definition pastScrollBounds (g : Geometry) (w : World) (diffY : Q) : bool :=
  let th := inject_Z (offsetHeight g) in
  let ts := (inject_Z (scrollHeight g) - scrollTop w)%Q in
  (Qltb (scrollTop w) 0 && Qltb diffY 0)
  || (Qltb (th - 2) ts && Qltb ts (th + 2) && Qltb 0 diffY).

(** The touchmove listener. Its result is the world, the event, and what
    the listener returns: [Some false] for [return false] (which follows
    the call of [hide]), [None] for the returns without a value. *)
Definition onTouchMove (cfg : Config) (g : Geometry) (t : Touch)
    (d : Dispatch) : Dispatch * option bool :=
  let '(w, e) := d in
  match touchPosX w, touchPosY w with
  | Some x0, Some y0 =>
      let diffX := (x0 - pageX t)%Q in
      let diffY := (y0 - pageY t)%Q in
      if hideOnSwipe cfg && swipeResult (side cfg) diffX diffY then
        let w := withTouch None None w in
        let '(w, _) := hide cfg None w in
        ((w, e), Some false)
      else if pastScrollBounds g w diffY then
        ((w, stopPropagation (preventDefault e)), None)
      else ((w, e), None)
  | _, _ => (d, None)
  end.

End Panel.

(** ** Navigation script: the homepage nav and its scroll-spy *)
Module ScrollSpy.
Import JsString JsNumber.

(** A [section[id]] element with the two layout numbers [onScroll] reads. *)
Record PageSection := { sectionId : string; offsetTop : Z; offsetHeight : Z }.

(** An [a] element of the nav element: its href, whether it carries the
    class scrolly, and its parent element (elements of the nav are
    numbered). *)
Record NavAnchor := { nav_href : string; nav_scrolly : bool; nav_parent : nat }.

(** A [.link] element of the mobile panel. *)
Record MobileLink := { m_href : option string; m_current : bool }.

(** [navItem(href, label, isCurrent, scrolly)]: one [li] holding one [a]. *)
Record NavItem := {
  item_href : string;
  item_label : string;
  item_current : bool;
  item_scrolly : bool
}.

Definition navItem (href label : string) (isCurrent scrolly : bool) : NavItem :=
  {| item_href := href; item_label := label;
     item_current := isCurrent; item_scrolly := scrolly |}.

(** The items of the homepage nav. *)
Definition homepageItems : list NavItem :=
  [ navItem "#about" "About" false true;
    navItem "services/" "Services" false false;
    navItem "#contact" "Contact" false true;
    navItem "blog/index.html" "Blog" false false ].

(** [basePath ? basePath + 'index.html' : 'index.html'] *)
Definition homeLink (basePath : string) : string :=
  if truthy basePath then basePath ++ "index.html" else "index.html".

(** The anchors of the injected nav in document order: the logo link,
    whose parent is the container (element 0), then the link of each item,
    whose parent is its own [li] (elements 1, 2, ...). *)
Fixpoint itemAnchors (first : nat) (items : list NavItem) : list NavAnchor :=
  match items with
  | [] => []
  | it :: rest =>
      {| nav_href := item_href it; nav_scrolly := item_scrolly it;
         nav_parent := first |} :: itemAnchors (S first) rest
  end.

Definition navAnchors (basePath : string) (items : list NavItem) : list NavAnchor :=
  {| nav_href := homeLink basePath; nav_scrolly := false; nav_parent := 0 |}
    :: itemAnchors 1 items.

(** The elements of the nav that carry the class current when injected. *)
Fixpoint itemCurrents (first : nat) (items : list NavItem) : gset nat :=
  match items with
  | [] => ∅
  | it :: rest =>
      (if item_current it then {[first]} else ∅) ∪ itemCurrents (S first) rest
  end.

(** The links of the mobile panel: [navList] writes one [.link] per nav
    anchor, with the href attribute when the anchor has a non-empty one,
    and never the class current. *)
Definition mobileLinksOf (nav : list NavAnchor) : list MobileLink :=
  map (fun a =>
         {| m_href := if truthy (nav_href a) then Some (nav_href a) else None;
            m_current := false |}) nav.

(** The part of the document the scroll-spy writes: which elements of the
    nav carry the class current, and the links of the mobile panel
    ([None] when there is no element with id navPanel). *)
Record Dom := {
  currentParents : gset nat;
  mobileLinks : option (list MobileLink)
}.

(** The closure variable [currentSection] and the document. *)
Record State := { currentSection : option string; dom : Dom }.

(** [navLinks.forEach(link => link.parentElement.classList.remove('current'))]
    over [navLinks = navElement.querySelectorAll('a.scrolly')]. *)
Definition clearDesktop (nav : list NavAnchor) (cur : gset nat) : gset nat :=
  fold_left (fun cur a => cur ∖ {[nav_parent a]}) (List.filter nav_scrolly nav) cur.

(** [navElement.querySelector('a[href=#id]')] *)
Definition findAnchor (nav : list NavAnchor) (id : string) : option NavAnchor :=
  List.find (fun a => String.eqb (nav_href a) ("#" ++ id)) nav.

Definition markDesktop (nav : list NavAnchor) (id : option string)
    (cur : gset nat) : gset nat :=
  match id with
  | Some s =>
      if truthy s then
        match findAnchor nav s with
        | Some activeLink => cur ∪ {[nav_parent activeLink]}
        | None => cur
        end
      else cur
  | None => cur
  end.

Definition clearMobile (links : list MobileLink) : list MobileLink :=
  map (fun l => {| m_href := m_href l; m_current := false |}) links.

(** [navPanel.querySelector('.link[href=#id]')] and [classList.add]. *)
Fixpoint markFirst (href : string) (links : list MobileLink) : list MobileLink :=
  match links with
  | [] => []
  | l :: rest =>
      if bool_decide (m_href l = Some href)
      then {| m_href := m_href l; m_current := true |} :: rest
      else l :: markFirst href rest
  end.

Definition markMobile (id : option string) (links : list MobileLink)
    : list MobileLink :=
  match id with
  | Some s => if truthy s then markFirst ("#" ++ s) links else links
  | None => links
  end.

Definition updateCurrentSection (nav : list NavAnchor) (id : option string)
    (st : State) : State :=
  if bool_decide (currentSection st = id) then st
  else
    {| currentSection := id;
       dom :=
         {| currentParents :=
              markDesktop nav id (clearDesktop nav (currentParents (dom st)));
            mobileLinks :=
              option_map (fun links => markMobile id (clearMobile links))
                         (mobileLinks (dom st)) |} |}.

(** [window.scrollY] and [window.innerHeight] at a scroll event. *)
Record Scroll := { scrollY : Q; innerHeight : Z }.

(** [window.scrollY + window.innerHeight * 0.3] *)
Definition scrollPos (ev : Scroll) : Q :=
  (scrollY ev + inject_Z (innerHeight ev) * 0.3)%Q.

(** [scrollPos >= top && scrollPos < bottom] *)
Definition inRange (pos : Q) (s : PageSection) : bool :=
  let top := offsetTop s in
  let bottom := (top + offsetHeight s)%Z in
  Qgeb pos (inject_Z top) && Qltb pos (inject_Z bottom).

(** The [sections.forEach] of [onScroll]: every section in range
    overwrites [foundSection]. *)
Definition findSection (pos : Q) (sections : list PageSection) : option string :=
  fold_left (fun foundSection s =>
               if inRange pos s then Some (sectionId s) else foundSection)
            sections None.

Definition onScroll (nav : list NavAnchor) (sections : list PageSection)
    (ev : Scroll) (st : State) : State :=
  updateCurrentSection nav (findSection (scrollPos ev) sections) st.

(** The DOMContentLoaded handler of the homepage and the scroll events
    after it: [evs] starts with the initial check. Nothing is installed
    when the page has no section or the nav no scrolly link. *)
Definition spy (nav : list NavAnchor) (sections : list PageSection)
    (evs : list Scroll) (d : Dom) : State :=
  let st0 := {| currentSection := None; dom := d |} in
  if (length sections =? 0)%nat || (length (List.filter nav_scrolly nav) =? 0)%nat
  then st0
  else fold_left (fun st ev => onScroll nav sections ev st) evs st0.

(** The homepage as the scripts build it. *)
Definition homepageNav (basePath : string) : list NavAnchor :=
  navAnchors basePath homepageItems.

Definition homepageDom (basePath : string) (hasNavPanel : bool) : Dom :=
  {| currentParents := itemCurrents 1 homepageItems;
     mobileLinks :=
       if hasNavPanel then Some (mobileLinksOf (homepageNav basePath)) else None |}.

(** How many nav anchors have a parent that carries current, and how many
    mobile links carry it. *)
Definition desktopCurrent (nav : list NavAnchor) (d : Dom) : nat :=
  length (List.filter (fun a => bool_decide (nav_parent a ∈ currentParents d)) nav).

Definition mobileCurrent (d : Dom) : nat :=
  match mobileLinks d with
  | Some links => length (List.filter m_current links)
  | None => 0
  end.

End ScrollSpy.

(** ** Blog structured-data script *)
Module BlogMeta.
Import JsString.

(** [article.dataset]: each data attribute is a string or absent. *)
Record Dataset := {
  headline : option string;
  datePublished : option string;
  dateModified : option string;
  description : option string;
  image : option string
}.

(** The configuration object, as far as this script reads it. *)
Record Social := { linkedin : string; github : string; x : string }.
Record Config := { social : option Social }.

(** The two globals the script probes with [typeof]. *)
Record Globals := { MBSecure : option Config; SITE_CONFIG : option Config }.

(** The [social] block of the site configuration script. *)
Definition siteSocial : Social :=
  {| linkedin := "https://www.linkedin.com/in/marcusbakker";
     github := "https://github.com/marcusbakker";
     x := "https://x.com/Bakk3rM" |}.

Definition siteGlobals : Globals :=
  {| MBSecure := Some {| social := Some siteSocial |}; SITE_CONFIG := None |}.

(** The object handed to [JSON.stringify]: strings and objects, the
    properties of an object in insertion order. *)
#[warnings="-register-all"]
Inductive json :=
| JString (s : string)
| JObject (properties : list (string * json)).

(** Truthiness of a value that is a string or undefined. *)
Definition present (o : option string) : bool :=
  match o with
  | Some s => truthy s
  | None => false
  end.

(** [a || b] on such values. *)
Definition orElse (a b : option string) : option string :=
  if present a then a else b.

Definition resolveConfig (g : Globals) : Config :=
  match MBSecure g with
  | Some c => c
  | None =>
      match SITE_CONFIG g with
      | Some c => c
      | None => {| social := None |}
      end
  end.

(** From reading the data attributes to the object built from them;
    [None] when the required attributes are missing. *)
Definition structuredData (g : Globals) (article : Dataset) : option json :=
  let dateModified' := orElse (dateModified article) (datePublished article) in
  if negb (present (headline article)) || negb (present (datePublished article))
  then None
  else
    let config := resolveConfig g in
    let authorUrl :=
      match social config with
      | Some s => linkedin s
      | None => "https://www.linkedin.com/in/marcusbakker"
      end in
    let properties :=
      [ ("@context", JString "https://schema.org");
        ("@type", JString "BlogPosting");
        ("headline", JString (default "" (headline article)));
        ("datePublished", JString (default "" (datePublished article)));
        ("dateModified", JString (default "" dateModified'));
        ("author", JObject
           [ ("@type", JString "Person");
             ("name", JString "Marcus Bakker");
             ("url", JString authorUrl) ]);
        ("publisher", JObject
           [ ("@type", JString "Organization");
             ("name", JString "MB Secure");
             ("logo", JObject
                [ ("@type", JString "ImageObject");
                  ("url", JString "https://mbsecure.nl/images/logo.png") ]) ]);
        ("description",
           JString (default "" (orElse (description article) (Some "")))) ] in
    Some (JObject
            (if present (image article)
             then (properties ++ [("image", JString (default "" (image article)))])%list
             else properties)).

(** The script element the handler creates; its text is the
    serialization of [script_data]. *)
Record Script := { script_type : string; script_data : json }.

(** What the handler reads and writes: the [article.blog-post] element,
    the children of the element with id blog-structured-data, and the
    console. An absent element is [None]. *)
Record Document := {
  article : option Dataset;
  placeholder : option (list Script);
  console : list string
}.

Definition onDOMContentLoaded (g : Globals) (doc : Document) : Document :=
  match article doc with
  | None => doc
  | Some art =>
      match placeholder doc with
      | None => doc
      | Some children =>
          match structuredData g art with
          | None =>
              {| article := article doc;
                 placeholder := placeholder doc;
                 console := (console doc ++
                   ["BlogMeta: Missing required data attributes (headline, datePublished)"])%list |}
          | Some data =>
              {| article := article doc;
                 placeholder := Some (children ++
                   [{| script_type := "application/ld+json"; script_data := data |}])%list;
                 console := console doc |}
          end
      end
  end.

(** The JSON-LD blocks the page holds. *)
Definition blocks (doc : Document) : list Script :=
  List.filter (fun sc => String.eqb (script_type sc) "application/ld+json")
              (default [] (placeholder doc)).

(** The handler emitted a block: the page holds one more than before. *)
Definition emitted (g : Globals) (doc : Document) : bool :=
  (length (blocks doc) <? length (blocks (onDOMContentLoaded g doc)))%nat.

(** A property of an object, by name. *)
Definition property (name : string) (j : json) : option json :=
  match j with
  | JObject properties =>
      option_map snd (List.find (fun kv => String.eqb (fst kv) name) properties)
  | JString _ => None
  end.

End BlogMeta.

(** ** The wording of the specification

    Definitions that follow the sentences of the specification, to be
    compared with the definitions above, which follow the scripts. *)
Module Reading.
Import JsString JsNumber.

(** Escaping in one pass: each of the five characters becomes its entity,
    every other character stays. *)
Definition escapeChar (c : ascii) : string :=
  if Ascii.eqb c "&" then "&amp;"
  else if Ascii.eqb c "<" then "&lt;"
  else if Ascii.eqb c ">" then "&gt;"
  else if Ascii.eqb c MBUtil.dquote then "&quot;"
  else if Ascii.eqb c MBUtil.squote then "&#39;"
  else String c EmptyString.

Fixpoint escapeEach (s : string) : string :=
  match s with
  | EmptyString => EmptyString
  | String c rest => escapeChar c ++ escapeEach rest
  end.

(** The sections whose vertical range holds the probe, in document order. *)
Definition matching (pos : Q) (sections : list ScrollSpy.PageSection)
    : list ScrollSpy.PageSection :=
  List.filter (ScrollSpy.inRange pos) sections.

(** First match wins. *)
Definition firstMatch (pos : Q) (sections : list ScrollSpy.PageSection)
    : option string :=
  option_map ScrollSpy.sectionId (head (matching pos sections)).

(** Last match wins. *)
Definition lastMatch (pos : Q) (sections : list ScrollSpy.PageSection)
    : option string :=
  option_map ScrollSpy.sectionId (last (matching pos sections)).

(** The swipe tolerance as the specification words it: the orthogonal
    displacement strictly within 20 pixels either way, the displacement
    towards the configured side at least 50 pixels. *)
Definition swipeAtLeast (side : option string) (diffX diffY : Q) : bool :=
  match side with
  | None => false
  | Some s =>
      if String.eqb s "left" then
        (Qltb diffY 20 && Qltb (-20) diffY) && Qgeb diffX 50
      else if String.eqb s "right" then
        (Qltb diffY 20 && Qltb (-20) diffY) && Qgeb (-50) diffX
      else if String.eqb s "top" then
        (Qltb diffX 20 && Qltb (-20) diffX) && Qgeb diffY 50
      else if String.eqb s "bottom" then
        (Qltb diffX 20 && Qltb (-20) diffX) && Qgeb (-50) diffY
      else false
  end.

(** The same with the displacement towards the side beyond 50 pixels. *)
Definition swipeBeyond (side : option string) (diffX diffY : Q) : Prop :=
  (side = Some "left" /\ (-20 < diffY)%Q /\ (diffY < 20)%Q /\ (50 < diffX)%Q)
  \/ (side = Some "right" /\ (-20 < diffY)%Q /\ (diffY < 20)%Q /\ (diffX < -50)%Q)
  \/ (side = Some "top" /\ (-20 < diffX)%Q /\ (diffX < 20)%Q /\ (50 < diffY)%Q)
  \/ (side = Some "bottom" /\ (-20 < diffX)%Q /\ (diffX < 20)%Q /\ (diffY < -50)%Q).

(** The markers of a document are in order: every element of the nav
    that carries current is the parent of a scrolly anchor, and at most
    one anchor of the nav and at most one link of the mobile panel is
    marked. *)
Definition markersOk (nav : list ScrollSpy.NavAnchor) (d : ScrollSpy.Dom) : Prop :=
  (forall p : nat, p ∈ ScrollSpy.currentParents d ->
     exists a, In a nav /\ ScrollSpy.nav_scrolly a = true
               /\ ScrollSpy.nav_parent a = p)
  /\ ScrollSpy.desktopCurrent nav d <= 1
  /\ ScrollSpy.mobileCurrent d <= 1.

End Reading.

(** ** Sample inputs *)
Module Samples.
Import Panel ScrollSpy.

(** The body of a page whose nav panel is closed, and is open. *)
Definition hiddenWorld : World :=
  {| targetClasses := {["is-preload"]}; touchPosX := None; touchPosY := None;
     timers := []; scrollTop := 0%Q; formResets := 0; opened := [];
     locationHref := None |}.

Definition shownWorld : World :=
  {| targetClasses := {["navPanel-visible"]}; touchPosX := None;
     touchPosY := None; timers := []; scrollTop := 0%Q; formResets := 0;
     opened := []; locationHref := None |}.

(** A click on the toggle of the title bar, and a click on an anchor to
    the panel id that lies inside the panel. *)
Definition toggleAnchor : Anchor :=
  {| a_href := Some "#navPanel"; a_target := None |}.

Definition titleBarClick : Click :=
  {| insidePanel := false; anchorChain := [toggleAnchor] |}.

Definition insideClick : Click :=
  {| insidePanel := true; anchorChain := [toggleAnchor] |}.

(** A touch that started at the origin on the open panel. *)
Definition touchedWorld : World :=
  {| targetClasses := {["navPanel-visible"]}; touchPosX := Some 0%Q;
     touchPosY := Some 0%Q; timers := []; scrollTop := 0%Q; formResets := 0;
     opened := []; locationHref := None |}.

Definition panelGeometry : Geometry :=
  {| Panel.offsetHeight := 600; scrollHeight := 900 |}.

(** Two sections that overlap between 50 and 100. *)
Definition overlapping : list PageSection :=
  [ {| sectionId := "about"; offsetTop := 0; ScrollSpy.offsetHeight := 100 |};
    {| sectionId := "contact"; offsetTop := 50; ScrollSpy.offsetHeight := 100 |} ].

(** The article of the specification: a headline and a publication
    date, no modification date. *)
Definition articleX : BlogMeta.Dataset :=
  {| BlogMeta.headline := Some "X";
     BlogMeta.datePublished := Some "2020-01-01";
     BlogMeta.dateModified := None;
     BlogMeta.description := None;
     BlogMeta.image := None |}.

End Samples.

(** ** Site configuration script: [throttle]

    The closure [throttle(func, limit)] returns keeps one variable,
    [inThrottle]. A call runs [func] and arms a timer when the variable is
    not set; the timer clears it. What is observed of [func] is the list of
    the arguments it was applied to. *)
Module Throttle.

Record State (A : Type) := {
  inThrottle : bool;        (* undefined at first, which is falsy *)
  resets : list Z;          (* delays of the pending reset timers *)
  applied : list A          (* the arguments [func] was applied to, in order *)
}.
Arguments inThrottle {A}.
Arguments resets {A}.
Arguments applied {A}.

Definition fresh {A : Type} : State A :=
  {| inThrottle := false; resets := []; applied := [] |}.

(** A call of the throttled function. *)
Definition call {A : Type} (limit : Z) (args : A) (st : State A) : State A :=
  if negb (inThrottle st) then
    {| inThrottle := true;
       resets := (resets st ++ [limit])%list;
       applied := (applied st ++ [args])%list |}
  else st.

(** The oldest pending timer fires. *)
Definition fire {A : Type} (st : State A) : State A :=
  match resets st with
  | [] => st
  | _ :: pending =>
      {| inThrottle := false; resets := pending; applied := applied st |}
  end.

(** What happens to a throttled function over time. *)
Inductive Step (A : Type) :=
| Call (args : A)
| Fire.
Arguments Call {A}.
Arguments Fire {A}.

Definition step {A : Type} (limit : Z) (st : State A) (s : Step A) : State A :=
  match s with
  | Call args => call limit args st
  | Fire => fire st
  end.

Definition run {A : Type} (limit : Z) (steps : list (Step A)) (st : State A)
    : State A :=
  fold_left (step limit) steps st.

Definition isFire {A : Type} (s : Step A) : bool :=
  match s with
  | Fire => true
  | Call _ => false
  end.

End Throttle.

(** ** Navigation script: the nav of every page type *)
Module NavPages.
Import JsString ScrollSpy.

(** The four body classes the script reads. *)
Record PageType := {
  isHomepage : bool;
  isBlogPost : bool;
  isBlogIndex : bool;
  isServicesPage : bool
}.

(** [isServicesPage ? 'services' : (isBlogIndex || isBlogPost) ? 'blog' : null] *)
Definition currentPage (pt : PageType) : option string :=
  if isServicesPage pt then Some "services"
  else if isBlogIndex pt || isBlogPost pt then Some "blog"
  else None.

Definition blogIndexPath (basePath : string) (pt : PageType) : string :=
  let blogIndexPath := basePath ++ "blog/index.html" in
  if isBlogPost pt then "../../index.html"
  else if isBlogIndex pt && negb (String.eqb basePath "../")
  then basePath ++ "blog/index.html"
  else blogIndexPath.

(** The items of the nav, by page type. *)
Definition navItems (basePath : string) (pt : PageType) : list NavItem :=
  if isHomepage pt then homepageItems
  else
    [ navItem (basePath ++ "index.html#about") "About" false false;
      navItem (basePath ++ "services/") "Services"
              (bool_decide (currentPage pt = Some "services")) false;
      navItem (basePath ++ "index.html#contact") "Contact" false false;
      navItem (blogIndexPath basePath pt) "Blog"
              (bool_decide (currentPage pt = Some "blog")) false ].

(** [s.indexOf(needle) !== -1] *)
Fixpoint includes (needle s : string) : bool :=
  String.prefix needle s
  || match s with
     | EmptyString => false
     | String _ rest => includes needle rest
     end.

(** The loop [mobileLinks.forEach] of the handler for the other pages:
    a link whose href holds the keyword gets the class current. Reading
    the href of a link without the attribute gives null, and the call of
    [indexOf] on it throws: the loop stops there, [false] is returned with
    the links as they are by then. *)
Fixpoint markByKeyword (keyword : string) (links : list MobileLink)
    : list MobileLink * bool :=
  match links with
  | [] => ([], true)
  | l :: rest =>
      match m_href l with
      | None => (l :: rest, false)
      | Some href =>
          let l' := if includes keyword href
                    then {| m_href := m_href l; m_current := true |}
                    else l in
          let '(rest', ok) := markByKeyword keyword rest in
          (l' :: rest', ok)
      end
  end.

(** The DOMContentLoaded handler that marks the current page in the
    mobile menu; it is registered on the pages other than the homepage.
    [links] are the [.link] elements of the nav panel, [None] without
    panel. *)
Definition markCurrentPage (pt : PageType) (links : option (list MobileLink))
    : option (list MobileLink) * bool :=
  if isHomepage pt then (links, true)
  else
    match links with
    | None => (None, true)
    | Some ls =>
        if isBlogIndex pt || isBlogPost pt then
          let '(ls', ok) := markByKeyword "blog" ls in (Some ls', ok)
        else if isServicesPage pt then
          let '(ls', ok) := markByKeyword "services" ls in (Some ls', ok)
        else (Some ls, true)
    end.

(** The mobile links of a page as the scripts build them: the main
    script derives them from the injected nav. *)
Definition pageMobileLinks (basePath : string) (pt : PageType) : list MobileLink :=
  mobileLinksOf (navAnchors basePath (navItems basePath pt)).

End NavPages.

(** ** Shapes of results *)
Module Shapes.
Import JsString.

(** [n] steps up: the string ../ repeated [n] times. *)
Definition ups (n : nat) : string := String.concat "" (repeat "../" n).

(** The path of a page: the folders from the root, then the file name;
    an empty file name gives the path of the last folder, with its
    trailing slash. *)
Fixpoint pagePath (folders : list string) (file : string) : string :=
  match folders with
  | [] => String "/" file
  | folder :: below => String "/" (folder ++ pagePath below file)
  end.

(** A name that can stand between two slashes of a path. *)
Definition isName (s : string) : bool := truthy s && negb (hasChar "/" s).

(** The five characters [escapeHtml] replaces. *)
Definition isSpecial (c : ascii) : bool :=
  Ascii.eqb c "&" || Ascii.eqb c "<" || Ascii.eqb c ">"
  || Ascii.eqb c MBUtil.dquote || Ascii.eqb c MBUtil.squote.

Fixpoint hasSpecial (s : string) : bool :=
  match s with
  | EmptyString => false
  | String c rest => isSpecial c || hasSpecial rest
  end.

(** The elements of the homepage nav that are marked for a section id:
    the item of About is element 1, the item of Contact element 3. *)
Definition homepageMarks (id : option string) : gset nat :=
  match id with
  | Some s =>
      if String.eqb s "about" then {[1]}
      else if String.eqb s "contact" then {[3]}
      else ∅
  | None => ∅
  end.

(** The markers as a function of the current section alone: what
    [updateCurrentSection] writes for [id] on a document without
    markers, whose mobile links are [links]. *)
Definition renderMarks (nav : list ScrollSpy.NavAnchor)
    (links : option (list ScrollSpy.MobileLink)) (id : option string)
    : ScrollSpy.Dom :=
  {| ScrollSpy.currentParents := ScrollSpy.markDesktop nav id ∅;
     ScrollSpy.mobileLinks := option_map (ScrollSpy.markMobile id) links |}.

(** Calls of [hide] in a row, each with its own event or without one. *)
Definition hideAll (cfg : Panel.Config) (events : list (option Panel.Event))
    (w : Panel.World) : Panel.World :=
  fold_left (fun w event => fst (Panel.hide cfg event w)) events w.

End Shapes.

(* ===================================================================== *)
(** * Part II: properties                                                *)
(* ===================================================================== *)

(** ** String helpers *)
Section StringFacts.
Import JsString.

Lemma truthy_false_iff (s : string) : truthy s = false <-> s = "".
Proof.
  unfold truthy. rewrite negb_false_iff. apply String.eqb_eq.
Qed.

Lemma truthy_true_iff (s : string) : truthy s = true <-> s <> "".
Proof.
  unfold truthy. rewrite negb_true_iff. apply String.eqb_neq.
Qed.

Lemma append_cons (c : ascii) (s t : string) :
  String c s ++ t = String c (s ++ t).
Proof. reflexivity. Qed.

Lemma append_assoc (s t u : string) : (s ++ t) ++ u = s ++ (t ++ u).
Proof.
  induction s as [|c s IH]; [reflexivity|].
  rewrite !append_cons. now rewrite IH.
Qed.

Lemma append_empty_r (s : string) : s ++ "" = s.
Proof.
  induction s as [|c s IH]; [reflexivity|].
  rewrite append_cons. now rewrite IH.
Qed.

Lemma split_sep (sep : ascii) (s : string) :
  split sep (String sep s) = "" :: split sep s.
Proof. simpl. now rewrite Ascii.eqb_refl. Qed.

(** A piece without separator in front of a separator is the first
    piece of the split. *)
Lemma split_piece (sep : ascii) (piece rest : string) :
  hasChar sep piece = false ->
  split sep (piece ++ String sep rest) = piece :: split sep rest.
Proof.
  induction piece as [|c piece IH]; intros Hno.
  - apply split_sep.
  - simpl in Hno. apply orb_false_iff in Hno as [Hc Hno].
    simpl. rewrite Hc, (IH Hno). reflexivity.
Qed.

Lemma endsWith_cons (c : ascii) (s suffix : string) :
  String c s <> suffix ->
  endsWith (String c s) suffix = endsWith s suffix.
Proof.
  intros Hne. cbn [endsWith].
  apply String.eqb_neq in Hne. now rewrite Hne.
Qed.

(** Whether a string ends with a slash is decided by any non-empty tail. *)
Lemma endsWith_slash_app (front tail : string) :
  tail <> "" -> endsWith (front ++ tail) "/" = endsWith tail "/".
Proof.
  intros Hne. induction front as [|c front IH]; [reflexivity|].
  change (String c front ++ tail) with (String c (front ++ tail)).
  rewrite endsWith_cons; [exact IH|].
  intros Heq. injection Heq as _ Heq.
  destruct front; cbn in Heq; [contradiction | discriminate].
Qed.

End StringFacts.

(** ** [getBasePath] *)
Section GetBasePath.
Import JsString SiteConfig.

Lemma pathSegments_slash (s : string) :
  pathSegments (String "/" s) = pathSegments s.
Proof. unfold pathSegments. now rewrite split_sep. Qed.

Lemma pathSegments_folder (folder rest : string) :
  folder <> "" -> hasChar "/" folder = false ->
  pathSegments (folder ++ String "/" rest) = folder :: pathSegments rest.
Proof.
  intros Hne Hno. unfold pathSegments. rewrite split_piece by exact Hno.
  cbn [List.filter]. apply truthy_true_iff in Hne. now rewrite Hne.
Qed.

Lemma isInDirectory_tail (front tail : string) :
  tail <> "" ->
  isInDirectory (String "/" (front ++ tail)) = endsWith tail "/".
Proof.
  intros Hne. unfold isInDirectory.
  change (String "/" (front ++ tail)) with (String "/" front ++ tail).
  rewrite endsWith_slash_app by exact Hne.
  assert (Hp : (String "/" front ++ tail =? "/") = false).
  { apply String.eqb_neq.
    change (String "/" front ++ tail) with (String "/" (front ++ tail)).
    intros Heq. injection Heq as Heq.
    destruct front; cbn in Heq; [contradiction | discriminate]. }
  rewrite Hp. apply andb_true_r.
Qed.

Lemma isGitHubProjectSite_elsewhere (host : string) (segments : list string) :
  endsWith host ".github.io" = false ->
  isGitHubProjectSite host segments = false.
Proof. intros H. unfold isGitHubProjectSite. now rewrite H. Qed.

Lemma isGitHubProjectSite_folder (host folder : string) (segments : list string) :
  endsWith host ".github.io" = true -> folder <> "index.html" ->
  isGitHubProjectSite host (folder :: segments) = true.
Proof.
  intros H Hne. unfold isGitHubProjectSite. rewrite H.
  apply String.eqb_neq in Hne. now rewrite Hne.
Qed.

End GetBasePath.

Section GetBasePathClaims.
Import JsString SiteConfig.

Example split_blog_index :
  split "/" "/blog/index.html" = [""; "blog"; "index.html"].
Proof. reflexivity. Qed.

Example pathSegments_post :
  pathSegments "/blog/2024/01/post.html" = ["blog"; "2024"; "01"; "post.html"].
Proof. reflexivity. Qed.

Example getBasePath_root :
  getBasePath {| pathname := "/"; hostname := "mbsecure.nl" |} = "" /\
  getBasePath {| pathname := "/index.html"; hostname := "mbsecure.nl" |} = "".
Proof. split; reflexivity. Qed.

(** C1, as the specification states it, fails: on a host that is not a
    GitHub Pages host the path /blog/index.html has the two segments blog
    and index.html, so [getBasePath] returns one step up and not the empty
    string; /blog/2024/01/post.html has four segments, so it returns three
    steps up and not two. *)
Lemma getBasePath_enumerated_values_counterexample :
  getBasePath {| pathname := "/blog/index.html"; hostname := "mbsecure.nl" |} <> ""
  /\ getBasePath {| pathname := "/blog/2024/01/post.html"; hostname := "mbsecure.nl" |}
     <> "../../".
Proof. split; vm_compute; discriminate. Qed.

(** C1, amended: for every hostname that does not end in .github.io,
    [getBasePath] returns "../" for the path /blog/index.html, "../" for
    /blog/ and "../../../" for /blog/2024/01/post.html. *)
Theorem getBasePath_enumerated_values (host : string) :
  endsWith host ".github.io" = false ->
  getBasePath {| pathname := "/blog/index.html"; hostname := host |} = "../"
  /\ getBasePath {| pathname := "/blog/"; hostname := host |} = "../"
  /\ getBasePath {| pathname := "/blog/2024/01/post.html"; hostname := host |}
     = "../../../".
Proof.
  intros Hhost. unfold getBasePath. cbn [pathname hostname].
  rewrite !isGitHubProjectSite_elsewhere by exact Hhost.
  repeat split; reflexivity.
Qed.

Lemma getBasePath_enumerated_values_witness :
  getBasePath {| pathname := "/blog/index.html"; hostname := "mbsecure.nl" |} = "../"
  /\ getBasePath {| pathname := "/blog/"; hostname := "mbsecure.nl" |} = "../"
  /\ getBasePath {| pathname := "/blog/2024/01/post.html"; hostname := "mbsecure.nl" |}
     = "../../../".
Proof. apply (getBasePath_enumerated_values "mbsecure.nl"). reflexivity. Defined.

(** C3: on a host ending in .github.io the project folder in front of the
    path is not counted. For every folder name (non-empty, without slash,
    other than index.html) and every rest of the path, [getBasePath] at
    /folder/rest on such a host equals [getBasePath] at /rest on a host
    that does not end in .github.io. *)
Theorem getBasePath_project_folder (project rest ghHost host : string) :
  project <> "" ->
  hasChar "/" project = false ->
  project <> "index.html" ->
  endsWith ghHost ".github.io" = true ->
  endsWith host ".github.io" = false ->
  getBasePath {| pathname := "/" ++ project ++ "/" ++ rest; hostname := ghHost |}
  = getBasePath {| pathname := "/" ++ rest; hostname := host |}.
Proof.
  intros Hne Hno Hidx Hgh Hhost.
  change ("/" ++ project ++ "/" ++ rest)
    with (String "/" (project ++ String "/" rest)).
  change ("/" ++ rest) with (String "/" rest).
  unfold getBasePath. cbn [pathname hostname].
  rewrite !pathSegments_slash, pathSegments_folder by assumption.
  rewrite isGitHubProjectSite_folder by assumption.
  rewrite isGitHubProjectSite_elsewhere by assumption.
  cbn [drop].
  destruct rest as [|c rest'].
  - reflexivity.
  - rewrite (isInDirectory_tail project (String "/" (String c rest')))
      by discriminate.
    pose proof (isInDirectory_tail "" (String c rest')) as Hrest.
    change ("" ++ String c rest') with (String c rest') in Hrest.
    rewrite Hrest by discriminate.
    rewrite (endsWith_cons "/" (String c rest')) by discriminate.
    reflexivity.
Qed.

Lemma getBasePath_project_folder_witness :
  getBasePath {| pathname := "/my-project/blog/index.html";
                 hostname := "marcusprivate.github.io" |}
  = getBasePath {| pathname := "/blog/index.html"; hostname := "mbsecure.nl" |}.
Proof.
  apply (getBasePath_project_folder
           "my-project" "blog/index.html" "marcusprivate.github.io" "mbsecure.nl");
    solve [ reflexivity | discriminate ].
Defined.

End GetBasePathClaims.

(** ** [escapeHtml] and [navList] *)
Section Escaping.
Import JsString MBUtil Reading.

Lemma hasChar_app (c : ascii) (s t : string) :
  hasChar c (s ++ t) = hasChar c s || hasChar c t.
Proof.
  induction s as [|d s IH]; [reflexivity|].
  rewrite append_cons. simpl. rewrite IH. apply orb_assoc.
Qed.

Lemma countChar_app (c : ascii) (s t : string) :
  countChar c (s ++ t) = countChar c s + countChar c t.
Proof.
  induction s as [|d s IH]; [reflexivity|].
  rewrite append_cons. simpl. rewrite IH. lia.
Qed.

Lemma countChar_absent (c : ascii) (s : string) :
  hasChar c s = false -> countChar c s = 0.
Proof.
  induction s as [|d s IH]; [reflexivity|].
  simpl. intros H. apply orb_false_iff in H as [Hd Hs].
  rewrite Hd, (IH Hs). reflexivity.
Qed.

(** Replacing a character by a string without it removes it. *)
Lemma replaceAll_removes (c : ascii) (by_ s : string) :
  hasChar c by_ = false -> hasChar c (replaceAll c by_ s) = false.
Proof.
  intros Hby. induction s as [|d s IH]; [reflexivity|].
  simpl. destruct (Ascii.eqb d c) eqn:Hd.
  - rewrite hasChar_app, Hby, IH. reflexivity.
  - simpl. rewrite Hd, IH. reflexivity.
Qed.

(** A replacement by a string without [c] brings no [c] in. *)
Lemma replaceAll_keeps_absent (c d : ascii) (by_ s : string) :
  hasChar c by_ = false -> hasChar c s = false ->
  hasChar c (replaceAll d by_ s) = false.
Proof.
  intros Hby. induction s as [|a s IH]; [reflexivity|].
  simpl. intros H. apply orb_false_iff in H as [Ha Hs].
  destruct (Ascii.eqb a d).
  - rewrite hasChar_app, Hby, (IH Hs). reflexivity.
  - simpl. rewrite Ha, (IH Hs). reflexivity.
Qed.

(** The five passes of [escapeHtml] amount to one pass that maps each
    character on its own. *)
Lemma replaceAll_app (c : ascii) (by_ s t : string) :
  replaceAll c by_ (s ++ t) = replaceAll c by_ s ++ replaceAll c by_ t.
Proof.
  induction s as [|d s IH]; [reflexivity|].
  rewrite append_cons. simpl. destruct (Ascii.eqb d c).
  - rewrite IH. symmetry. apply append_assoc.
  - rewrite append_cons. now rewrite IH.
Qed.

Local Abbreviation passes s :=
  (replaceAll squote "&#39;"
    (replaceAll dquote "&quot;"
      (replaceAll ">" "&gt;"
        (replaceAll "<" "&lt;"
          (replaceAll "&" "&amp;" s))))).

Lemma passes_app (s t : string) : passes (s ++ t) = passes s ++ passes t.
Proof. now rewrite !replaceAll_app. Qed.

Lemma passes_char (c : ascii) : passes (String c "") = escapeChar c.
Proof.
  unfold escapeChar.
  destruct (Ascii.eqb c "&") eqn:E1.
  { apply Ascii.eqb_eq in E1. subst c. reflexivity. }
  destruct (Ascii.eqb c "<") eqn:E2.
  { apply Ascii.eqb_eq in E2. subst c. reflexivity. }
  destruct (Ascii.eqb c ">") eqn:E3.
  { apply Ascii.eqb_eq in E3. subst c. reflexivity. }
  destruct (Ascii.eqb c dquote) eqn:E4.
  { apply Ascii.eqb_eq in E4. subst c. reflexivity. }
  destruct (Ascii.eqb c squote) eqn:E5.
  { apply Ascii.eqb_eq in E5. subst c. reflexivity. }
  simpl. rewrite E1. simpl. rewrite E2. simpl. rewrite E3. simpl.
  rewrite E4. simpl. rewrite E5. reflexivity.
Qed.

Lemma passes_escapeEach (s : string) : passes s = escapeEach s.
Proof.
  induction s as [|c s IH]; [reflexivity|].
  change (String c s) with (String c "" ++ s).
  rewrite passes_app, passes_char, IH. reflexivity.
Qed.

Lemma escapeHtml_string (s : string) : escapeHtml (JsStr s) = escapeEach s.
Proof.
  unfold escapeHtml. cbn [jsTruthy toString].
  destruct (truthy s) eqn:Hs; cbn [negb].
  - apply passes_escapeEach.
  - apply truthy_false_iff in Hs. subst s. reflexivity.
Qed.

Lemma escapeChar_clean (c : ascii) :
  hasChar "<" (escapeChar c) = false /\ hasChar ">" (escapeChar c) = false
  /\ hasChar dquote (escapeChar c) = false
  /\ hasChar squote (escapeChar c) = false.
Proof.
  unfold escapeChar.
  destruct (Ascii.eqb c "&") eqn:E1; [repeat split; reflexivity|].
  destruct (Ascii.eqb c "<") eqn:E2; [repeat split; reflexivity|].
  destruct (Ascii.eqb c ">") eqn:E3; [repeat split; reflexivity|].
  destruct (Ascii.eqb c dquote) eqn:E4; [repeat split; reflexivity|].
  destruct (Ascii.eqb c squote) eqn:E5; [repeat split; reflexivity|].
  simpl. rewrite E2, E3, E4, E5. repeat split; reflexivity.
Qed.

Lemma escapeEach_clean (s : string) :
  hasChar "<" (escapeEach s) = false /\ hasChar ">" (escapeEach s) = false
  /\ hasChar dquote (escapeEach s) = false
  /\ hasChar squote (escapeEach s) = false.
Proof.
  induction s as [|c s (I1 & I2 & I3 & I4)]; [repeat split; reflexivity|].
  destruct (escapeChar_clean c) as (C1 & C2 & C3 & C4).
  cbn [escapeEach]. rewrite !hasChar_app, C1, C2, C3, C4, I1, I2, I3, I4.
  repeat split; reflexivity.
Qed.

Lemma escapeHtml_clean (v : jsval) :
  hasChar "<" (escapeHtml v) = false /\ hasChar ">" (escapeHtml v) = false
  /\ hasChar dquote (escapeHtml v) = false
  /\ hasChar squote (escapeHtml v) = false.
Proof.
  destruct v as [| |s]; try (repeat split; reflexivity).
  rewrite escapeHtml_string. apply escapeEach_clean.
Qed.

(** The decimal digits of a number hold no markup character. *)
Lemma showNat_clean (n : nat) :
  hasChar "<" (showNat n) = false /\ hasChar ">" (showNat n) = false
  /\ hasChar dquote (showNat n) = false.
Proof.
  unfold showNat. generalize (Nat.to_uint n) as u.
  induction u as [|u IH|u IH|u IH|u IH|u IH|u IH|u IH|u IH|u IH|u IH];
    [repeat split; reflexivity | ..];
    destruct IH as (I1 & I2 & I3); cbn [NilEmpty.string_of_uint hasChar];
    rewrite I1, I2, I3; repeat split; reflexivity.
Qed.

Lemma concat_empty_cons (x : string) (xs : list string) :
  String.concat "" (x :: xs) = x ++ String.concat "" xs.
Proof.
  destruct xs as [|y ys]; [symmetry; apply append_empty_r | reflexivity].
Qed.

(** The tags of one link: four opening and four closing angle brackets,
    whatever its attributes and its text are. *)
Lemma linkMarkup_brackets (link : NavLink) :
  countChar "<" (linkMarkup link) = 4 /\ countChar ">" (linkMarkup link) = 4.
Proof.
  unfold linkMarkup.
  set (indent := Nat.max 0 (countLI (link_ancestors link) - 1)).
  destruct (showNat_clean indent) as (N1 & N2 & _).
  destruct (escapeHtml_clean (JsStr (orEmpty (link_target link)))) as (T1 & T2 & _).
  destruct (escapeHtml_clean (JsStr (orEmpty (link_href link)))) as (H1 & H2 & _).
  destruct (escapeHtml_clean (JsStr (link_textContent link))) as (L1 & L2 & _).
  apply countChar_absent in N1, N2, T1, T2, H1, H2, L1, L2.
  split.
  - destruct (truthy (orEmpty (link_target link)));
      destruct (truthy (orEmpty (link_href link)));
      rewrite !countChar_app, ?N1, ?T1, ?H1, ?L1; reflexivity.
  - destruct (truthy (orEmpty (link_target link)));
      destruct (truthy (orEmpty (link_href link)));
      rewrite !countChar_app, ?N2, ?T2, ?H2, ?L2; reflexivity.
Qed.

Lemma navList_brackets (links : list NavLink) :
  countChar "<" (navList links) = 4 * length links
  /\ countChar ">" (navList links) = 4 * length links.
Proof.
  unfold navList. induction links as [|link links [IH1 IH2]].
  - split; reflexivity.
  - destruct (linkMarkup_brackets link) as [B1 B2].
    cbn [map]. rewrite concat_empty_cons, !countChar_app, B1, B2, IH1, IH2.
    cbn [length]. split; lia.
Qed.

(** The double quotes of one link delimit its attributes: two for each
    attribute written, none from a value. *)
Lemma linkMarkup_quotes (link : NavLink) :
  countChar dquote (linkMarkup link)
  = 4 + (if truthy (orEmpty (link_target link)) then 2 else 0)
      + (if truthy (orEmpty (link_href link)) then 2 else 0).
Proof.
  unfold linkMarkup.
  set (indent := Nat.max 0 (countLI (link_ancestors link) - 1)).
  destruct (showNat_clean indent) as (_ & _ & N).
  destruct (escapeHtml_clean (JsStr (orEmpty (link_target link)))) as (_ & _ & T & _).
  destruct (escapeHtml_clean (JsStr (orEmpty (link_href link)))) as (_ & _ & H & _).
  destruct (escapeHtml_clean (JsStr (link_textContent link))) as (_ & _ & L & _).
  apply countChar_absent in N, T, H, L.
  destruct (truthy (orEmpty (link_target link)));
    destruct (truthy (orEmpty (link_href link)));
    rewrite !countChar_app, ?N, ?T, ?H, ?L; reflexivity.
Qed.

(** The text of a link enters its markup as the last piece before the
    closing tag, escaped; what stands before does not depend on it. *)
Lemma linkMarkup_text (href target : option string) (ancestors : list string) :
  exists opening : string, forall text : string,
    linkMarkup {| link_href := href; link_target := target;
                  link_textContent := text; link_ancestors := ancestors |}
    = opening ++ escapeEach text ++ "</a>".
Proof.
  set (indent := Nat.max 0 (countLI ancestors - 1)).
  exists ("<a " ++ "class=" ++ DQ ++ "link depth-" ++ showNat indent ++ DQ ++
    (if truthy (orEmpty target)
     then " target=" ++ DQ ++ escapeHtml (JsStr (orEmpty target)) ++ DQ else "") ++
    (if truthy (orEmpty href)
     then " href=" ++ DQ ++ escapeHtml (JsStr (orEmpty href)) ++ DQ else "") ++
    ">" ++ "<span class=" ++ DQ ++ "indent-" ++ showNat indent ++ DQ ++ "></span>").
  intros text. unfold linkMarkup. cbn [link_href link_target link_textContent
    link_ancestors]. fold indent.
  rewrite (escapeHtml_string text), !append_assoc. reflexivity.
Qed.

Example escapeHtml_script : escapeHtml (JsStr "<script>") = "&lt;script&gt;".
Proof. reflexivity. Qed.

Example escapeHtml_order : escapeHtml (JsStr "a&<") = "a&amp;&lt;".
Proof. reflexivity. Qed.


(** C10: [escapeHtml] returns the empty string for null, undefined and
    the empty string, and for every string its result holds no raw
    angle bracket, double quote or single quote. *)
Theorem escapeHtml_falsy_and_clean :
  escapeHtml JsNull = "" /\ escapeHtml JsUndefined = ""
  /\ escapeHtml (JsStr "") = ""
  /\ (forall s : string,
        hasChar "<" (escapeHtml (JsStr s)) = false
        /\ hasChar ">" (escapeHtml (JsStr s)) = false
        /\ hasChar dquote (escapeHtml (JsStr s)) = false
        /\ hasChar squote (escapeHtml (JsStr s)) = false).
Proof.
  repeat split; try reflexivity; apply (escapeHtml_clean (JsStr s)).
Qed.

End Escaping.

(** ** [panel]: hiding and toggling *)
Section PanelFacts.
Import JsString Panel.

Lemma contains_remove (cs : gset string) (c : string) :
  contains (remove cs c) c = false.
Proof.
  unfold contains, remove. apply bool_decide_eq_false.
  rewrite elem_of_difference, elem_of_singleton. intros [_ Hne]. now apply Hne.
Qed.

Lemma contains_add (cs : gset string) (c : string) :
  contains (add cs c) c = true.
Proof.
  unfold contains, add. apply bool_decide_eq_true.
  apply elem_of_union_r, elem_of_singleton. reflexivity.
Qed.

Lemma toggle_flips (cs : gset string) (c : string) :
  contains (toggle cs c) c = negb (contains cs c).
Proof.
  unfold toggle. destruct (contains cs c) eqn:H.
  - apply contains_remove.
  - apply contains_add.
Qed.

(** Toggling twice gives the class list back. *)
Lemma toggle_toggle (cs : gset string) (c : string) :
  toggle (toggle cs c) c = cs.
Proof.
  unfold toggle at 1. rewrite toggle_flips. unfold toggle.
  destruct (contains cs c) eqn:H; cbn [negb]; unfold contains, add, remove in *.
  - apply bool_decide_eq_true in H. apply set_eq. intros x.
    rewrite elem_of_union, elem_of_difference, elem_of_singleton. split.
    + intros [[Hx _] | ->]; assumption.
    + intros Hx. destruct (decide (x = c)); [right | left]; auto.
  - apply bool_decide_eq_false in H. apply set_eq. intros x.
    rewrite elem_of_difference, elem_of_union, elem_of_singleton. split.
    + intros [[Hx | Hx] Hne]; [exact Hx | contradiction].
    + intros Hx. split; [left; exact Hx | intros ->; contradiction].
Qed.

Lemma withClasses_same (w : World) : withClasses (targetClasses w) w = w.
Proof. now destruct w. Qed.

Lemma withClasses_twice (cs cs' : gset string) (w : World) :
  withClasses cs' (withClasses cs w) = withClasses cs' w.
Proof. reflexivity. Qed.

Lemma hide_hidden (cfg : Config) (event : option Event) (w : World) :
  visible cfg w = false -> hide cfg event w = (w, event).
Proof. unfold visible, hide. intros H. now rewrite H. Qed.

(** After [hide] the panel is hidden, whatever it was before. *)
Lemma hide_hides (cfg : Config) (event : option Event) (w : World) :
  visible cfg (fst (hide cfg event w)) = false.
Proof.
  unfold hide. destruct (contains (targetClasses w) (visibleClass cfg)) eqn:H;
    cbn [negb fst].
  - unfold visible. cbn [targetClasses withTimers withClasses].
    apply contains_remove.
  - exact H.
Qed.

(** A second [hide] right after a first one changes nothing. *)
Lemma hide_twice (cfg : Config) (ev1 ev2 : option Event) (w : World) :
  hide cfg ev2 (fst (hide cfg ev1 w)) = (fst (hide cfg ev1 w), ev2).
Proof. apply hide_hidden, hide_hides. Qed.

(** C4: when the target does not carry [visibleClass], [hide] is a no-op:
    the world it returns is the one it was given (same class list, no
    timer added) and the event it was called with keeps its flags; a
    second call in a row is a no-op again. *)
Theorem hide_noop_when_hidden
    (cfg : Config) (ev1 ev2 : option Event) (w : World) :
  visible cfg w = false ->
  hide cfg ev1 w = (w, ev1)
  /\ targetClasses (fst (hide cfg ev1 w)) = targetClasses w
  /\ timers (fst (hide cfg ev1 w)) = timers w
  /\ snd (hide cfg ev1 w) = ev1
  /\ hide cfg ev2 (fst (hide cfg ev1 w)) = (w, ev2).
Proof.
  intros Hhidden. rewrite (hide_hidden cfg ev1 w Hhidden). cbn [fst snd].
  rewrite (hide_hidden cfg ev2 w Hhidden). repeat split; reflexivity.
Qed.

Lemma hide_noop_when_hidden_witness :
  hide navPanelConfig (Some freshEvent) Samples.hiddenWorld = (Samples.hiddenWorld, Some freshEvent)
  /\ targetClasses (fst (hide navPanelConfig (Some freshEvent) Samples.hiddenWorld))
     = targetClasses Samples.hiddenWorld
  /\ timers (fst (hide navPanelConfig (Some freshEvent) Samples.hiddenWorld))
     = timers Samples.hiddenWorld
  /\ snd (hide navPanelConfig (Some freshEvent) Samples.hiddenWorld) = Some freshEvent
  /\ hide navPanelConfig None
       (fst (hide navPanelConfig (Some freshEvent) Samples.hiddenWorld))
     = (Samples.hiddenWorld, None).
Proof.
  apply (hide_noop_when_hidden navPanelConfig (Some freshEvent) None Samples.hiddenWorld).
  vm_compute. reflexivity.
Defined.

End PanelFacts.

Section PanelToggle.
Import JsString Panel.

(** A click on an anchor to the panel id outside the panel toggles the
    class and does nothing else. *)
Lemma click_outside_toggle (cfg : Config) (id : string) (c : Click)
    (a : Anchor) (w : World) :
  insidePanel c = false -> closestToggle id c = Some a ->
  click cfg id c w = withClasses (toggle (targetClasses w) (visibleClass cfg)) w.
Proof.
  intros Hout Hlink. unfold click, dispatchClick, bodyClick.
  rewrite Hout. unfold onBodyToggleClick, onBodyHide. rewrite Hlink.
  reflexivity.
Qed.

Lemma click_outside_twice (cfg : Config) (id : string) (c : Click)
    (a : Anchor) (w : World) :
  insidePanel c = false -> closestToggle id c = Some a ->
  click cfg id c (click cfg id c w) = w.
Proof.
  intros Hout Hlink. rewrite !(click_outside_toggle cfg id c a) by assumption.
  cbn [targetClasses withClasses]. rewrite toggle_toggle.
  rewrite withClasses_twice. apply withClasses_same.
Qed.

Lemma clicks_outside_double (cfg : Config) (id : string) (c : Click)
    (a : Anchor) (k : nat) (w : World) :
  insidePanel c = false -> closestToggle id c = Some a ->
  clicks cfg id c (2 * k) w = w.
Proof.
  intros Hout Hlink. induction k as [|k IH]; [reflexivity|].
  replace (2 * S k) with (S (S (2 * k))) by lia.
  cbn [clicks]. rewrite (click_outside_twice cfg id c a) by assumption.
  exact IH.
Qed.

(** An anchor to the panel id inside the panel hides and never shows. *)
Lemma click_inside_hides (cfg : Config) (id : string) (c : Click)
    (a : Anchor) (w : World) :
  insidePanel c = true -> closestAnchor c = Some a ->
  a_href a = Some ("#" ++ id) ->
  visible cfg (click cfg id c w) = false.
Proof.
  intros Hin Hclosest Hhref.
  assert (Hlink : closestToggle id c = Some a).
  { unfold closestToggle, closestAnchor in *.
    destruct (anchorChain c) as [|a' chain]; [discriminate|].
    cbn in Hclosest. injection Hclosest as ->. cbn [List.find].
    unfold isToggleAnchor. rewrite Hhref, String.eqb_refl. reflexivity. }
  unfold click, dispatchClick. rewrite Hin. unfold panelClick.
  assert (Hskip : onPanelLinkClick id c (w, freshEvent) = (w, freshEvent)).
  { unfold onPanelLinkClick. rewrite Hclosest, Hhref.
    change (default "" (Some ("#" ++ id))) with ("#" ++ id).
    rewrite (String.eqb_refl ("#" ++ id)), !orb_true_r. reflexivity. }
  assert (Hd : (if hideOnClick cfg then onPanelLinkClick id c (w, freshEvent)
                else (w, freshEvent)) = (w, freshEvent)).
  { destruct (hideOnClick cfg); [exact Hskip | reflexivity]. }
  rewrite Hd. unfold onPanelStop, onPanelToggleClick. rewrite Hlink.
  cbn [snd fst propagationStopped stopPropagation preventDefault].
  unfold visible. cbn [targetClasses withClasses]. apply contains_remove.
Qed.

(** C5, as the specification states it, fails: two clicks on an anchor
    to the panel id that lies inside the open panel leave the panel
    closed. The listener of the panel removes the class, and the click
    never reaches the toggling listener of the body. *)
Lemma toggle_even_clicks_counterexample :
  closestAnchor Samples.insideClick = Some Samples.toggleAnchor
  /\ a_href Samples.toggleAnchor = Some ("#" ++ "navPanel")
  /\ visible navPanelConfig Samples.shownWorld = true
  /\ visible navPanelConfig
       (clicks navPanelConfig "navPanel" Samples.insideClick 2 Samples.shownWorld)
     = false.
Proof. vm_compute. repeat split; reflexivity. Qed.

(** C5, amended: for every panel and every even number n, n clicks on an
    anchor to the panel id that lies outside the panel element return the
    target to its original visibility state; its class list, and the rest
    of what the panel writes, are as before the clicks. *)
Theorem toggle_even_clicks (cfg : Config) (id : string) (c : Click)
    (a : Anchor) (n : nat) (w : World) :
  insidePanel c = false ->
  closestToggle id c = Some a ->
  Nat.even n = true ->
  visible cfg (clicks cfg id c n w) = visible cfg w
  /\ clicks cfg id c n w = w.
Proof.
  intros Hout Hlink Heven.
  apply Nat.even_spec in Heven as [k ->].
  rewrite (clicks_outside_double cfg id c a k w Hout Hlink).
  split; reflexivity.
Qed.

Lemma toggle_even_clicks_witness :
  visible navPanelConfig
    (clicks navPanelConfig "navPanel" Samples.titleBarClick 4 Samples.shownWorld)
  = visible navPanelConfig Samples.shownWorld
  /\ clicks navPanelConfig "navPanel" Samples.titleBarClick 4 Samples.shownWorld
     = Samples.shownWorld.
Proof.
  apply (toggle_even_clicks navPanelConfig "navPanel" Samples.titleBarClick
           Samples.toggleAnchor 4 Samples.shownWorld); reflexivity.
Defined.

Example one_click_opens :
  visible navPanelConfig
    (click navPanelConfig "navPanel" Samples.titleBarClick Samples.hiddenWorld)
  = true.
Proof. vm_compute. reflexivity. Qed.

End PanelToggle.

(** ** [panel]: the swipe gesture *)
Section PanelSwipe.
Import JsString JsNumber Panel Reading.

Lemma Qltb_lt (x y : Q) : Qltb x y = true <-> (x < y)%Q.
Proof.
  unfold Qltb. rewrite negb_true_iff. split.
  - intros H. apply Qnot_le_lt. intros Hle.
    apply Qle_bool_iff in Hle. congruence.
  - intros H. destruct (Qle_bool y x) eqn:E; [|reflexivity].
    apply Qle_bool_iff in E. exfalso. now apply (Qlt_not_le x y).
Qed.

Lemma Qgeb_ge (x y : Q) : Qgeb x y = true <-> (y <= x)%Q.
Proof. unfold Qgeb. apply Qle_bool_iff. Qed.

Ltac side_cases s :=
  destruct (String.eqb_spec s "left") as [->|Hl];
  [|destruct (String.eqb_spec s "right") as [->|Hr];
    [|destruct (String.eqb_spec s "top") as [->|Ht];
      [|destruct (String.eqb_spec s "bottom") as [->|Hb]]]].

(** The swipe test of the listener: the orthogonal displacement strictly
    within 20 pixels either way and the displacement towards the side
    beyond 50 pixels, for one of the four sides. *)
Lemma swipeResult_beyond (side : option string) (diffX diffY : Q) :
  swipeResult side diffX diffY = true <-> swipeBeyond side diffX diffY.
Proof.
  unfold swipeResult, swipeBeyond. destruct side as [s|].
  - side_cases s; cbn beta zeta;
      rewrite ?andb_true_iff, ?Qltb_lt.
    + split.
      * intros [[H1 H2] H3]. left. repeat split; [lra | lra | lra].
      * intros [(_ & H1 & H2 & H3)|[(E & _)|[(E & _)|(E & _)]]];
          try discriminate E. repeat split; lra.
    + split.
      * intros [[H1 H2] H3]. right; left. repeat split; lra.
      * intros [(E & _)|[(_ & H1 & H2 & H3)|[(E & _)|(E & _)]]];
          try discriminate E. repeat split; lra.
    + split.
      * intros [[H1 H2] H3]. right; right; left. repeat split; lra.
      * intros [(E & _)|[(E & _)|[(_ & H1 & H2 & H3)|(E & _)]]];
          try discriminate E. repeat split; lra.
    + split.
      * intros [[H1 H2] H3]. right; right; right. repeat split; lra.
      * intros [(E & _)|[(E & _)|[(E & _)|(_ & H1 & H2 & H3)]]];
          try discriminate E. repeat split; lra.
    + split; [discriminate|].
      intros [(E & _)|[(E & _)|[(E & _)|(E & _)]]]; congruence.
  - split; [discriminate|].
    intros [(E & _)|[(E & _)|[(E & _)|(E & _)]]]; discriminate E.
Qed.

(** Without a touch being tracked the listener returns at once. *)
Lemma onTouchMove_untracked (cfg : Config) (g : Geometry) (t : Touch)
    (w : World) (e : Event) :
  touchPosX w = None \/ touchPosY w = None ->
  onTouchMove cfg g t (w, e) = ((w, e), None).
Proof.
  intros [H|H]; unfold onTouchMove; rewrite H;
    [|destruct (touchPosX w)]; reflexivity.
Qed.




Example swipe_right_hides :
  snd (onTouchMove navPanelConfig Samples.panelGeometry
         {| pageX := 60; pageY := 5 |} (Samples.touchedWorld, freshEvent))
  = Some false
  /\ visible navPanelConfig
       (fst (fst (onTouchMove navPanelConfig Samples.panelGeometry
                    {| pageX := 60; pageY := 5 |}
                    (Samples.touchedWorld, freshEvent))))
     = false.
Proof. vm_compute. split; reflexivity. Qed.

End PanelSwipe.

(** ** Scroll-spy: which section is found *)
Section FindSection.
Import JsNumber ScrollSpy Reading.

Lemma findSection_snoc (pos : Q) (sections : list PageSection) (s : PageSection) :
  findSection pos (sections ++ [s])
  = if inRange pos s then Some (sectionId s) else findSection pos sections.
Proof. unfold findSection. now rewrite fold_left_app. Qed.

Lemma matching_snoc (pos : Q) (sections : list PageSection) (s : PageSection) :
  matching pos (sections ++ [s])
  = (matching pos sections ++ (if inRange pos s then [s] else []))%list.
Proof. unfold matching. rewrite List.filter_app. reflexivity. Qed.

(** The loop of [onScroll] leaves the last section in range. *)
Lemma findSection_lastMatch (pos : Q) (sections : list PageSection) :
  findSection pos sections = lastMatch pos sections.
Proof.
  induction sections as [|s sections IH] using rev_ind; [reflexivity|].
  rewrite findSection_snoc. unfold lastMatch in *. rewrite matching_snoc.
  destruct (inRange pos s).
  - now rewrite last_snoc.
  - now rewrite app_nil_r.
Qed.

Lemma currentSection_update (nav : list NavAnchor) (id : option string)
    (st : State) :
  currentSection (updateCurrentSection nav id st) = id.
Proof.
  unfold updateCurrentSection. case_bool_decide; [assumption | reflexivity].
Qed.

(** C2, as the specification states it, fails: with a first section from
    0 to 100 and a second one from 50 to 150, the probe 60 (scrollY 30,
    viewport height 100) lies in both; the first match is the first
    section, and the section selected as current is the second. *)
Lemma first_match_counterexample :
  length (matching (scrollPos {| scrollY := 30; innerHeight := 100 |})
                   Samples.overlapping) = 2
  /\ firstMatch (scrollPos {| scrollY := 30; innerHeight := 100 |})
                Samples.overlapping = Some "about"
  /\ currentSection
       (onScroll (homepageNav "") Samples.overlapping
                 {| scrollY := 30; innerHeight := 100 |}
                 {| currentSection := None; dom := homepageDom "" true |})
     = Some "contact".
Proof. vm_compute. repeat split; reflexivity. Qed.

(** C2, amended: for every scroll position, the section selected as
    current by [onScroll] is the last section in document order whose
    range from offsetTop (included) to offsetTop + offsetHeight (excluded)
    holds the probe point, and none when no section does. *)
Theorem onScroll_last_match (nav : list NavAnchor) (sections : list PageSection)
    (ev : Scroll) (st : State) :
  currentSection (onScroll nav sections ev st)
  = lastMatch (scrollPos ev) sections.
Proof.
  unfold onScroll. rewrite currentSection_update.
  apply findSection_lastMatch.
Qed.

(** Where the sections do not overlap there is one match at most, and
    first and last agree. *)
Lemma single_match_agrees (pos : Q) (sections : list PageSection)
    (s : PageSection) :
  matching pos sections = [s] ->
  firstMatch pos sections = lastMatch pos sections.
Proof. unfold firstMatch, lastMatch. now intros ->. Qed.

End FindSection.

(** ** Scroll-spy: the current markers *)
Lemma filter_none {A : Type} (f : A -> bool) (l : list A) :
  (forall x, In x l -> f x = false) -> List.filter f l = [].
Proof.
  induction l as [|x l IH]; intros Hall; [reflexivity|].
  cbn [List.filter]. rewrite (Hall x) by now left.
  apply IH. intros y Hy. apply Hall. now right.
Qed.

Section CurrentMarkers.
Import JsString ScrollSpy.

(** The nav this section is about: no two anchors share a parent, and
    an anchor whose href is a fragment carries the class scrolly. *)
Variable nav : list NavAnchor.
Hypothesis parents_distinct : NoDup (map nav_parent nav).
Hypothesis fragments_scrolly :
  forall (a : NavAnchor) (s : string),
    In a nav -> nav_href a = "#" ++ s -> nav_scrolly a = true.

Local Abbreviation markersOk := (Reading.markersOk nav).

Lemma fold_remove_parents (l : list NavAnchor) (cur : gset nat) (p : nat) :
  p ∈ fold_left (fun cur a => cur ∖ {[nav_parent a]}) l cur
  <-> p ∈ cur /\ forall a, In a l -> nav_parent a <> p.
Proof.
  revert cur. induction l as [|a l IH]; intros cur; cbn [fold_left].
  - split; [intros H; split; [exact H | intros a []] | intros [H _]; exact H].
  - rewrite IH, elem_of_difference, elem_of_singleton. split.
    + intros [[Hp Hne] Hl]. split; [exact Hp|].
      intros b [<-|Hb]; [congruence | now apply Hl].
    + intros [Hp Hl]. split; [split; [exact Hp|]|].
      * intros Heq. apply (Hl a); [now left | now symmetry].
      * intros b Hb. apply Hl. now right.
Qed.

(** Clearing empties the markers of a document that is in order. *)
Lemma clearDesktop_empty (d : Dom) :
  markersOk d -> clearDesktop nav (currentParents d) = ∅.
Proof.
  intros (Hsub & _ & _). apply set_eq. intros p. split.
  - unfold clearDesktop. rewrite fold_remove_parents. intros [Hp Hnone].
    destruct (Hsub p Hp) as (a & Hin & Hscrolly & Hparent).
    exfalso. apply (Hnone a); [|exact Hparent].
    apply List.filter_In. now split.
  - intros H. now apply not_elem_of_empty in H.
Qed.

Lemma at_most_one_parent (l : list NavAnchor) (p : nat) :
  NoDup (map nav_parent l) ->
  length (List.filter (fun a => bool_decide (nav_parent a ∈ ({[p]} : gset nat))) l)
  <= 1.
Proof.
  induction l as [|a l IH]; intros Hnd; [cbn; lia|].
  cbn [map] in Hnd. apply NoDup_cons in Hnd as [Hnotin Hnd].
  cbn [List.filter]. case_bool_decide as Ha; [|now apply IH].
  apply elem_of_singleton in Ha. cbn [length].
  assert (Hnone : List.filter
            (fun a => bool_decide (nav_parent a ∈ ({[p]} : gset nat))) l = []).
  { apply filter_none. intros b Hb. apply bool_decide_eq_false.
    rewrite elem_of_singleton. intros Hbp. apply Hnotin.
    apply list_elem_of_In, List.in_map_iff. exists b. split; [congruence | exact Hb]. }
  rewrite Hnone. cbn. lia.
Qed.

Lemma none_current (l : list NavAnchor) :
  List.filter (fun a => bool_decide (nav_parent a ∈ (∅ : gset nat))) l = [].
Proof.
  apply filter_none. intros a _. apply bool_decide_eq_false.
  apply not_elem_of_empty.
Qed.

Lemma findAnchor_scrolly (s : string) (a : NavAnchor) :
  findAnchor nav s = Some a -> In a nav /\ nav_scrolly a = true.
Proof.
  unfold findAnchor. intros H. apply List.find_some in H as [Hin Hhref].
  apply String.eqb_eq in Hhref. split; [exact Hin|].
  now apply (fragments_scrolly a s).
Qed.

Lemma clearMobile_none (links : list MobileLink) :
  length (List.filter m_current (clearMobile links)) = 0.
Proof. induction links as [|l links IH]; [reflexivity | exact IH]. Qed.

Lemma markFirst_one_more (href : string) (links : list MobileLink) :
  length (List.filter m_current (markFirst href links))
  <= S (length (List.filter m_current links)).
Proof.
  induction links as [|l links IH]; [cbn; lia|].
  cbn [markFirst]. case_bool_decide.
  - cbn [List.filter m_current]. destruct (m_current l); cbn [length]; lia.
  - cbn [List.filter]. destruct (m_current l); cbn [length]; lia.
Qed.

Lemma markMobile_one (id : option string) (links : list MobileLink) :
  length (List.filter m_current (markMobile id (clearMobile links))) <= 1.
Proof.
  pose proof (clearMobile_none links) as Hnone. unfold markMobile.
  destruct id as [s|]; [destruct (truthy s)|]; try lia.
  pose proof (markFirst_one_more ("#" ++ s) (clearMobile links)). lia.
Qed.

(** One call of [updateCurrentSection] keeps the markers in order. *)
Lemma updateCurrentSection_ok (id : option string) (st : State) :
  markersOk (dom st) -> markersOk (dom (updateCurrentSection nav id st)).
Proof.
  intros Hok. unfold updateCurrentSection. case_bool_decide; [exact Hok|].
  cbn [dom]. rewrite (clearDesktop_empty _ Hok).
  unfold Reading.markersOk, desktopCurrent, mobileCurrent.
  cbn [currentParents mobileLinks].
  assert (Hmobile :
    match option_map (fun links => markMobile id (clearMobile links))
                     (mobileLinks (dom st)) with
    | Some links => length (List.filter m_current links)
    | None => 0
    end <= 1).
  { destruct (mobileLinks (dom st)) as [links|]; cbn [option_map]; [|lia].
    apply markMobile_one. }
  unfold markDesktop.
  destruct id as [s|]; [destruct (truthy s); [destruct (findAnchor nav s) as [a|] eqn:Hfind|]|].
  - apply findAnchor_scrolly in Hfind as [Hin Hscrolly].
    rewrite union_empty_l_L.
    split; [|split; [now apply at_most_one_parent | exact Hmobile]].
    intros p Hp. apply elem_of_singleton in Hp. subst p. now exists a.
  - split; [intros p Hp; now apply not_elem_of_empty in Hp|].
    rewrite none_current. split; [cbn; lia | exact Hmobile].
  - split; [intros p Hp; now apply not_elem_of_empty in Hp|].
    rewrite none_current. split; [cbn; lia | exact Hmobile].
  - split; [intros p Hp; now apply not_elem_of_empty in Hp|].
    rewrite none_current. split; [cbn; lia | exact Hmobile].
Qed.

Lemma updates_ok (ids : list (option string)) (st : State) :
  markersOk (dom st) ->
  markersOk (dom (fold_left (fun st id => updateCurrentSection nav id st) ids st)).
Proof.
  revert st. induction ids as [|id ids IH]; intros st Hok; [exact Hok|].
  cbn [fold_left]. apply IH. now apply updateCurrentSection_ok.
Qed.

Lemma spy_ok (sections : list PageSection) (evs : list Scroll) (d : Dom) :
  markersOk d -> markersOk (dom (spy nav sections evs d)).
Proof.
  intros Hok. unfold spy.
  destruct ((length sections =? 0)%nat
            || (length (List.filter nav_scrolly nav) =? 0)%nat); [exact Hok|].
  assert (Hgen : forall st, markersOk (dom st) ->
            markersOk (dom (fold_left
              (fun st ev => onScroll nav sections ev st) evs st))).
  { induction evs as [|ev evs IH]; intros st Hst; [exact Hst|].
    cbn [fold_left]. apply IH. unfold onScroll.
    now apply updateCurrentSection_ok. }
  now apply Hgen.
Qed.

End CurrentMarkers.

(** ** Scroll-spy on the homepage *)
Section Homepage.
Import JsString SiteConfig ScrollSpy.

Lemma upPrefix_head (depth : nat) :
  exists rest, upPrefix depth = String "/" rest \/ upPrefix depth = String "." rest.
Proof.
  destruct depth as [|[|depth]].
  - exists "". now left.
  - exists "./". now right.
  - eexists. right. unfold upPrefix. cbn [repeat String.concat].
    rewrite !append_cons. reflexivity.
Qed.

(** The base path is empty or starts with a dot or a slash. *)
Lemma getBasePath_head (loc : Location) :
  getBasePath loc = ""
  \/ exists rest, getBasePath loc = String "/" rest
                  \/ getBasePath loc = String "." rest.
Proof.
  unfold getBasePath.
  match goal with |- context [if ?b then "" else _] => destruct b end;
    [now left | right; apply upPrefix_head].
Qed.

(** The logo link of the nav is never a fragment link. *)
Lemma homeLink_not_fragment (loc : Location) (s : string) :
  homeLink (getBasePath loc) <> "#" ++ s.
Proof.
  unfold homeLink.
  destruct (getBasePath_head loc) as [-> | [rest [-> | ->]]];
    cbn [truthy String.eqb negb]; rewrite ?append_cons;
    change ("#" ++ s) with (String "#" s); discriminate.
Qed.

Lemma homepage_parents_distinct (basePath : string) :
  NoDup (map nav_parent (homepageNav basePath)).
Proof.
  cbn. apply (bool_decide_unpack _). vm_compute. exact I.
Qed.

Lemma homepage_fragments_scrolly (loc : Location) (a : NavAnchor) (s : string) :
  In a (homepageNav (getBasePath loc)) ->
  nav_href a = "#" ++ s -> nav_scrolly a = true.
Proof.
  change ("#" ++ s) with (String "#" s).
  intros [<-|[<-|[<-|[<-|[<-|Hnil]]]]]; [..|destruct Hnil];
    cbn [nav_href nav_scrolly item_href item_scrolly navItem]; intros Hhref;
    try reflexivity; try discriminate Hhref.
  exfalso. now apply (homeLink_not_fragment loc s).
Qed.

Lemma homepage_initial_ok (basePath : string) (hasNavPanel : bool) :
  Reading.markersOk (homepageNav basePath) (homepageDom basePath hasNavPanel).
Proof.
  unfold Reading.markersOk, homepageDom, desktopCurrent, mobileCurrent.
  cbn [currentParents mobileLinks].
  assert (Hnone : itemCurrents 1 homepageItems = ∅)
    by (cbn; now rewrite !union_empty_l_L).
  rewrite Hnone. split; [intros p Hp; now apply not_elem_of_empty in Hp|].
  split.
  - rewrite filter_none; [cbn; lia|].
    intros a _. apply bool_decide_eq_false, not_elem_of_empty.
  - destruct hasNavPanel; [|lia].
    unfold mobileLinksOf. rewrite filter_none; [cbn; lia|].
    intros l Hl. apply List.in_map_iff in Hl as (a & <- & _). reflexivity.
Qed.


Example scroll_spy_marks_contact :
  dom (spy (homepageNav "") Samples.overlapping
           [{| scrollY := 0; innerHeight := 100 |};
            {| scrollY := 30; innerHeight := 100 |}]
           (homepageDom "" true))
  = dom (updateCurrentSection (homepageNav "") (Some "contact")
           {| currentSection := None; dom := homepageDom "" true |})
  /\ mobileCurrent
       (dom (spy (homepageNav "") Samples.overlapping
                 [{| scrollY := 0; innerHeight := 100 |};
                  {| scrollY := 30; innerHeight := 100 |}]
                 (homepageDom "" true))) = 1.
Proof. vm_compute. split; reflexivity. Qed.

End Homepage.

(** ** Structured data of a blog post *)
Section StructuredData.
Import JsString BlogMeta.

Lemma structuredData_some_iff (g : Globals) (art : Dataset) :
  (exists data, structuredData g art = Some data)
  <-> present (headline art) = true /\ present (datePublished art) = true.
Proof.
  unfold structuredData.
  destruct (present (headline art)), (present (datePublished art));
    cbn [negb orb]; split;
    try (intros [data H]; discriminate H);
    try (intros [H1 H2]; discriminate);
    try (intros _; split; reflexivity).
  intros _. eexists. reflexivity.
Qed.

Lemma blocks_appended (children : list Script) (data : json) :
  List.filter (fun sc => String.eqb (script_type sc) "application/ld+json")
    (children ++ [{| script_type := "application/ld+json"; script_data := data |}])
  = (List.filter (fun sc => String.eqb (script_type sc) "application/ld+json")
       children
     ++ [{| script_type := "application/ld+json"; script_data := data |}])%list.
Proof. rewrite List.filter_app. reflexivity. Qed.

(** With article and placeholder on the page, the handler appends the
    block built from the data attributes, or logs and appends nothing. *)
Lemma onDOMContentLoaded_placeholder (g : Globals) (art : Dataset)
    (children : list Script) (log : list string) :
  placeholder (onDOMContentLoaded g
    {| article := Some art; placeholder := Some children; console := log |})
  = match structuredData g art with
    | Some data =>
        Some (children ++
              [{| script_type := "application/ld+json"; script_data := data |}])%list
    | None => Some children
    end.
Proof.
  unfold onDOMContentLoaded. cbn [article placeholder].
  destruct (structuredData g art); reflexivity.
Qed.

Lemma emitted_iff_data (g : Globals) (art : Dataset)
    (children : list Script) (log : list string) :
  emitted g {| article := Some art; placeholder := Some children; console := log |}
  = true
  <-> exists data, structuredData g art = Some data.
Proof.
  unfold emitted, blocks. rewrite onDOMContentLoaded_placeholder.
  cbn [placeholder]. rewrite Nat.ltb_lt.
  destruct (structuredData g art) as [data|];
    unfold default; cbn [from_option]; unfold id.
  - rewrite blocks_appended, length_app. cbn [length].
    split; [intros _; now exists data | intros _; lia].
  - split; [cbn; lia | intros [data H]; discriminate H].
Qed.

(** Without the placeholder element nothing is emitted. *)
Lemma no_placeholder_no_block (g : Globals) (art : option Dataset)
    (log : list string) :
  onDOMContentLoaded g {| article := art; placeholder := None; console := log |}
  = {| article := art; placeholder := None; console := log |}.
Proof. unfold onDOMContentLoaded. now destruct art. Qed.

Lemma dateModified_default (g : Globals) (art : Dataset) (data : json) :
  structuredData g art = Some data ->
  present (dateModified art) = false ->
  property "dateModified" data = property "datePublished" data
  /\ property "datePublished" data = option_map JString (datePublished art).
Proof.
  unfold structuredData.
  destruct (present (headline art)); cbn [negb orb]; [|discriminate].
  destruct (present (datePublished art)) eqn:Hpub; cbn [negb orb]; [|discriminate].
  intros Hdata Hmod. injection Hdata as <-.
  assert (Hor : orElse (dateModified art) (datePublished art) = datePublished art)
    by (unfold orElse; now rewrite Hmod).
  rewrite Hor.
  destruct (datePublished art) as [published|]; [|discriminate Hpub].
  destruct (present (image art)); split; reflexivity.
Qed.

(** C8, as the specification states it, fails: an article with headline
    X and publication date 2020-01-01 has both required attributes, and
    on a page without the placeholder element the handler emits no
    block. *)
Lemma emitted_iff_attributes_counterexample :
  present (headline Samples.articleX) = true
  /\ present (datePublished Samples.articleX) = true
  /\ emitted siteGlobals
       {| article := Some Samples.articleX; placeholder := None; console := [] |}
     = false.
Proof. vm_compute. repeat split; reflexivity. Qed.

(** C8, amended: on a page that has the placeholder element, what the
    emitter appends is determined by the data attributes of the article
    and the configuration alone: a JSON-LD block is emitted if and only
    if the headline and datePublished attributes are both present and
    non-empty; the block appended is the object built from the
    attributes, whatever the placeholder held before; and when the
    dateModified attribute is absent, the dateModified of the object
    equals its datePublished, which is the attribute. On a page without
    the placeholder element the handler changes nothing. *)
Theorem structured_data_emission (g : Globals) (art : Dataset)
    (children : list Script) (log : list string) :
  (emitted g {| article := Some art; placeholder := Some children; console := log |}
   = true
   <-> present (headline art) = true /\ present (datePublished art) = true)
  /\ placeholder (onDOMContentLoaded g
       {| article := Some art; placeholder := Some children; console := log |})
     = match structuredData g art with
       | Some data =>
           Some (children ++
             [{| script_type := "application/ld+json"; script_data := data |}])%list
       | None => Some children
       end
  /\ (forall data : json,
        structuredData g art = Some data ->
        dateModified art = None ->
        property "dateModified" data = property "datePublished" data
        /\ property "datePublished" data = option_map JString (datePublished art))
  /\ onDOMContentLoaded g
       {| article := Some art; placeholder := None; console := log |}
     = {| article := Some art; placeholder := None; console := log |}.
Proof.
  split; [|split; [|split]].
  - rewrite emitted_iff_data. apply structuredData_some_iff.
  - apply onDOMContentLoaded_placeholder.
  - intros data Hdata Habsent. apply (dateModified_default g art data Hdata).
    now rewrite Habsent.
  - apply no_placeholder_no_block.
Qed.

Example articleX_block :
  exists data,
    structuredData siteGlobals Samples.articleX = Some data
    /\ property "headline" data = Some (JString "X")
    /\ property "datePublished" data = Some (JString "2020-01-01")
    /\ property "dateModified" data = Some (JString "2020-01-01")
    /\ property "description" data = Some (JString "")
    /\ property "image" data = None.
Proof. eexists. repeat split; reflexivity. Qed.

End StructuredData.

(** ** [getBasePath]: the shape of the result *)
Section BasePathShape.
Import JsString SiteConfig Shapes.

Lemma ups_succ (n : nat) : ups (S n) = "../" ++ ups n.
Proof. unfold ups. cbn [repeat]. apply concat_empty_cons. Qed.

Lemma join_dots_succ (k : nat) :
  String.concat "/" (repeat ".." (S (S k)))
  = "../" ++ String.concat "/" (repeat ".." (S k)).
Proof. reflexivity. Qed.

(** Joining with slashes and closing with one is repeating ../ *)
Lemma upPrefix_ups (k : nat) : upPrefix (S k) = ups (S k).
Proof.
  induction k as [|k IH]; [reflexivity|].
  unfold upPrefix in *. rewrite join_dots_succ, append_assoc, IH.
  symmetry. apply ups_succ.
Qed.

Lemma split_name (s : string) :
  hasChar "/" s = false -> split "/" s = [s].
Proof.
  induction s as [|c s IH]; [reflexivity|].
  cbn [hasChar]. intros H. apply orb_false_iff in H as [Hc Hs].
  cbn [split]. rewrite Hc, (IH Hs). reflexivity.
Qed.

Lemma endsWith_name (s : string) :
  hasChar "/" s = false -> endsWith s "/" = false.
Proof.
  induction s as [|c s IH]; [reflexivity|].
  cbn [hasChar]. intros H. apply orb_false_iff in H as [Hc Hs].
  cbn [endsWith].
  assert (Hne : (String c s =? "/") = false).
  { apply String.eqb_neq. intros Heq. injection Heq as -> _.
    discriminate Hc. }
  rewrite Hne. now apply IH.
Qed.

Lemma isName_spec (s : string) :
  isName s = true <-> s <> "" /\ hasChar "/" s = false.
Proof.
  unfold isName. rewrite andb_true_iff, negb_true_iff, truthy_true_iff.
  reflexivity.
Qed.

Lemma pathSegments_name (file : string) :
  hasChar "/" file = false ->
  pathSegments file = if truthy file then [file] else [].
Proof.
  intros H. unfold pathSegments. rewrite (split_name file H).
  cbn [List.filter]. reflexivity.
Qed.

Lemma pagePath_slash (folders : list string) (file : string) :
  exists rest, pagePath folders file = String "/" rest.
Proof. destruct folders; eexists; reflexivity. Qed.

Lemma pathSegments_pagePath (folders : list string) (file : string) :
  forallb isName folders = true -> hasChar "/" file = false ->
  pathSegments (pagePath folders file)
  = (folders ++ (if truthy file then [file] else []))%list.
Proof.
  intros Hfolders Hfile. induction folders as [|folder below IH].
  - cbn [pagePath app]. rewrite pathSegments_slash.
    now apply pathSegments_name.
  - cbn [forallb] in Hfolders. apply andb_true_iff in Hfolders as [Hname Hbelow].
    apply isName_spec in Hname as [Hne Hno].
    cbn [pagePath]. rewrite pathSegments_slash.
    destruct (pagePath_slash below file) as [rest Hrest].
    rewrite Hrest, (pathSegments_folder folder rest Hne Hno).
    rewrite <- (pathSegments_slash rest), <- Hrest, (IH Hbelow). reflexivity.
Qed.

Lemma pagePath_file (folders : list string) (file : string) :
  exists front, pagePath folders file = String "/" (front ++ file).
Proof.
  induction folders as [|folder below [front IH]].
  - exists "". reflexivity.
  - exists (folder ++ String "/" front). cbn [pagePath].
    rewrite IH, append_assoc. reflexivity.
Qed.

Lemma pagePath_folder_end (folders : list string) :
  exists front, pagePath folders "" = front ++ "/".
Proof.
  induction folders as [|folder below [front IH]].
  - exists "". reflexivity.
  - exists (String "/" (folder ++ front)). cbn [pagePath].
    rewrite IH, append_cons, append_assoc. reflexivity.
Qed.

Lemma isInDirectory_pagePath (folders : list string) (file : string) :
  hasChar "/" file = false ->
  isInDirectory (pagePath folders file)
  = negb (truthy file) && negb (length folders =? 0)%nat.
Proof.
  intros Hfile. destruct (truthy file) eqn:Hf; cbn [negb andb].
  - apply truthy_true_iff in Hf.
    destruct (pagePath_file folders file) as [front ->].
    rewrite (isInDirectory_tail front file Hf). now apply endsWith_name.
  - apply truthy_false_iff in Hf. subst file.
    destruct folders as [|folder below]; [reflexivity|].
    cbn [length Nat.eqb negb pagePath].
    destruct (pagePath_folder_end below) as [front ->].
    rewrite <- append_assoc.
    rewrite (isInDirectory_tail (folder ++ front) "/") by discriminate.
    reflexivity.
Qed.

Lemma getBasePath_is_ups (loc : Location) :
  exists n : nat, getBasePath loc = ups n.
Proof.
  unfold getBasePath.
  set (segments := if isGitHubProjectSite (hostname loc) (pathSegments (pathname loc))
                   then drop 1 (pathSegments (pathname loc))
                   else pathSegments (pathname loc)).
  destruct (length segments) as [|[|m]] eqn:Hlen; cbn [Nat.eqb orb andb].
  - exists 0. reflexivity.
  - destruct (isInDirectory (pathname loc)); cbn [negb].
    + exists 1. reflexivity.
    + exists 0. reflexivity.
  - destruct (isInDirectory (pathname loc)); cbn [negb].
    + exists (S (S m)). apply upPrefix_ups.
    + exists (S m). replace (S (S m) - 1) with (S m) by lia. apply upPrefix_ups.
Qed.

(** X1: the base path is always a number of steps up: the empty string,
    or ../ repeated; a lone slash or any other string is never returned. *)
Theorem getBasePath_steps_up (loc : Location) :
  exists n : nat, getBasePath loc = ups n.
Proof. exact (getBasePath_is_ups loc). Qed.

(** X2: away from GitHub Pages, the base path of a page counts the folders
    above it: for the file of any name in the folders f1, ..., fn, and for
    the folder path that ends in a slash, it is ../ repeated n times. *)
Theorem getBasePath_counts_folders
    (folders : list string) (file host : string) :
  forallb isName folders = true ->
  hasChar "/" file = false ->
  endsWith host ".github.io" = false ->
  getBasePath {| pathname := pagePath folders file; hostname := host |}
  = ups (length folders).
Proof.
  intros Hfolders Hfile Hhost. unfold getBasePath. cbn [pathname hostname].
  rewrite (isGitHubProjectSite_elsewhere host _ Hhost).
  rewrite (pathSegments_pagePath folders file Hfolders Hfile).
  rewrite (isInDirectory_pagePath folders file Hfile).
  rewrite length_app.
  destruct (truthy file); cbn [negb andb length].
  - replace (length folders + 1) with (S (length folders)) by lia.
    destruct (length folders) as [|n]; [reflexivity|].
    cbn [Nat.eqb orb andb]. replace (S (S n) - 1) with (S n) by lia.
    apply upPrefix_ups.
  - rewrite Nat.add_0_r.
    destruct (length folders) as [|n]; [reflexivity|].
    cbn [Nat.eqb orb andb negb].
    destruct n; cbn [Nat.eqb andb negb]; apply upPrefix_ups.
Qed.

Lemma getBasePath_counts_folders_witness :
  getBasePath {| pathname := pagePath ["blog"; "2024"; "01"] "post.html";
                 hostname := "mbsecure.nl" |}
  = ups (length ["blog"; "2024"; "01"]).
Proof.
  apply (getBasePath_counts_folders ["blog"; "2024"; "01"] "post.html" "mbsecure.nl");
    reflexivity.
Defined.

Example pagePath_post :
  pagePath ["blog"; "2024"; "01"] "post.html" = "/blog/2024/01/post.html"
  /\ pagePath ["blog"] "" = "/blog/" /\ ups 3 = "../../../".
Proof. repeat split; reflexivity. Qed.

End BasePathShape.

(** ** [throttle] *)
Section ThrottleFacts.
Import Throttle.
Context {A : Type}.
Variable limit : Z.

(** At most one reset timer is pending, and exactly when the throttle is
    closed. *)
Lemma run_resets (steps : list (Step A)) (st : State A) :
  resets st = (if inThrottle st then [limit] else []) ->
  resets (run limit steps st)
  = (if inThrottle (run limit steps st) then [limit] else []).
Proof.
  revert st. induction steps as [|s steps IH]; intros st Hst; [exact Hst|].
  cbn [run fold_left]. apply IH. destruct s as [args|]; cbn [step].
  - unfold call. destruct (inThrottle st) eqn:Hin; cbn [negb]; [now rewrite Hin|].
    cbn [resets inThrottle]. now rewrite Hst.
  - unfold fire. rewrite Hst. destruct (inThrottle st) eqn:Hin;
      cbn [resets inThrottle]; [reflexivity | now rewrite Hst, Hin].
Qed.

Lemma run_budget (steps : list (Step A)) (st : State A) :
  resets st = (if inThrottle st then [limit] else []) ->
  length (applied (run limit steps st))
    + (if inThrottle (run limit steps st) then 0 else 1)
  <= length (applied st) + (if inThrottle st then 0 else 1)
     + length (List.filter isFire steps).
Proof.
  revert st. induction steps as [|s steps IH]; intros st Hst; [cbn; lia|].
  cbn [run fold_left].
  assert (Hnext : resets (step limit st s)
                  = (if inThrottle (step limit st s) then [limit] else [])).
  { apply (run_resets [s] st Hst). }
  specialize (IH _ Hnext). unfold run in IH.
  destruct s as [args|]; cbn [step List.filter isFire length] in *.
  - unfold call in *. destruct (inThrottle st) eqn:Hin; cbn [negb] in *.
    + rewrite Hin in IH. lia.
    + cbn [applied inThrottle] in IH. rewrite length_app in IH. cbn [length] in IH.
      lia.
  - unfold fire in *. rewrite Hst in *. destruct (inThrottle st) eqn:Hin.
    + cbn [applied inThrottle] in IH. lia.
    + rewrite Hin in IH. lia.
Qed.

(** Calls on a closed throttle are dropped. *)
Lemma calls_dropped (dropped : list A) (st : State A) :
  inThrottle st = true -> run limit (map Call dropped) st = st.
Proof.
  intros Hin. induction dropped as [|a dropped IH]; [reflexivity|].
  cbn [map run fold_left step]. unfold call. rewrite Hin. exact IH.
Qed.

End ThrottleFacts.



(** ** [panel]: what closes the panel, and what a click does besides *)
Section PanelMore.
Import JsString Panel Shapes.

Lemma hide_timers (cfg : Config) (event : option Event) (w : World) :
  timers (fst (hide cfg event w))
  = (timers w ++ (if visible cfg w then [delay cfg] else []))%list.
Proof.
  unfold hide, visible.
  destruct (contains (targetClasses w) (visibleClass cfg)); cbn [negb fst].
  - reflexivity.
  - now rewrite app_nil_r.
Qed.

Lemma hide_event (cfg : Config) (e : Event) (w : World) :
  snd (hide cfg (Some e) w)
  = Some (if visible cfg w then stopPropagation (preventDefault e) else e).
Proof.
  unfold hide, visible.
  now destruct (contains (targetClasses w) (visibleClass cfg)).
Qed.

(** [hide] writes the class list and the timers and nothing else. *)
Lemma hide_rest (cfg : Config) (event : option Event) (w : World) :
  touchPosX (fst (hide cfg event w)) = touchPosX w
  /\ touchPosY (fst (hide cfg event w)) = touchPosY w
  /\ scrollTop (fst (hide cfg event w)) = scrollTop w
  /\ formResets (fst (hide cfg event w)) = formResets w
  /\ opened (fst (hide cfg event w)) = opened w
  /\ locationHref (fst (hide cfg event w)) = locationHref w.
Proof.
  unfold hide.
  destruct (contains (targetClasses w) (visibleClass cfg));
    repeat split; reflexivity.
Qed.

Lemma hideAll_hidden (cfg : Config) (events : list (option Event)) (w : World) :
  visible cfg w = false -> hideAll cfg events w = w.
Proof.
  intros Hhidden. induction events as [|event events IH]; [reflexivity|].
  unfold hideAll in *. cbn [fold_left].
  now rewrite (hide_hidden cfg event w Hhidden).
Qed.

(** X5: however often [hide] is called in a row, and from whatever state,
    the panel ends hidden and at most one cleanup callback is scheduled:
    one when the panel was visible, none when it was hidden. *)
Theorem hides_schedule_one_cleanup
    (cfg : Config) (first : option Event) (more : list (option Event)) (w : World) :
  visible cfg (hideAll cfg (first :: more) w) = false
  /\ timers (hideAll cfg (first :: more) w)
     = (timers w ++ (if visible cfg w then [delay cfg] else []))%list
  /\ hideAll cfg (first :: more) w = fst (hide cfg first w).
Proof.
  assert (Hall : hideAll cfg (first :: more) w = fst (hide cfg first w)).
  { unfold hideAll. cbn [fold_left].
    apply (hideAll_hidden cfg more), hide_hides. }
  rewrite Hall. repeat split; [apply hide_hides | apply hide_timers].
Qed.

Lemma hideOn_spec (cfg : Config) (w : World) (e : Event) :
  hideOn cfg (w, e)
  = (fst (hide cfg (Some e) w),
     if visible cfg w then stopPropagation (preventDefault e) else e).
Proof.
  unfold hideOn. pose proof (hide_event cfg e w) as He.
  destruct (hide cfg (Some e) w) as [w' e']. cbn [fst snd] in *.
  now rewrite He.
Qed.

(** X6: a click outside the panel that is not on an anchor to the panel
    id closes the panel. If the panel was visible the click is consumed
    (default prevented, propagation stopped) and the cleanup scheduled;
    if it was hidden the click is left alone and nothing changes. *)
Theorem outside_click_hides (cfg : Config) (id : string) (c : Click) (w : World) :
  insidePanel c = false ->
  closestToggle id c = None ->
  visible cfg (click cfg id c w) = false
  /\ dispatchClick cfg id c w
     = (fst (hide cfg (Some freshEvent) w),
        if visible cfg w then stopPropagation (preventDefault freshEvent)
        else freshEvent)
  /\ (visible cfg w = false -> dispatchClick cfg id c w = (w, freshEvent)).
Proof.
  intros Hout Hnone.
  assert (Hd : dispatchClick cfg id c w = hideOn cfg (w, freshEvent)).
  { unfold dispatchClick, bodyClick, onBodyToggleClick, onBodyHide.
    rewrite Hout, Hnone. reflexivity. }
  unfold click. rewrite Hd, hideOn_spec. cbn [fst].
  split; [apply hide_hides|]. split; [reflexivity|].
  intros Hhidden. now rewrite (hide_hidden cfg _ w Hhidden), Hhidden.
Qed.

Lemma outside_click_hides_witness :
  visible navPanelConfig
    (click navPanelConfig "navPanel"
       {| insidePanel := false; anchorChain := [] |} Samples.shownWorld) = false
  /\ dispatchClick navPanelConfig "navPanel"
       {| insidePanel := false; anchorChain := [] |} Samples.shownWorld
     = (fst (hide navPanelConfig (Some freshEvent) Samples.shownWorld),
        if visible navPanelConfig Samples.shownWorld
        then stopPropagation (preventDefault freshEvent) else freshEvent)
  /\ (visible navPanelConfig Samples.shownWorld = false ->
      dispatchClick navPanelConfig "navPanel"
        {| insidePanel := false; anchorChain := [] |} Samples.shownWorld
      = (Samples.shownWorld, freshEvent)).
Proof.
  apply (outside_click_hides navPanelConfig "navPanel"
           {| insidePanel := false; anchorChain := [] |} Samples.shownWorld);
    reflexivity.
Defined.

(** The link listener of the panel starts a navigation or does nothing:
    it never writes the class list or the timers. *)
Lemma onPanelLinkClick_keeps (id : string) (c : Click) (w : World) (e : Event) :
  targetClasses (fst (onPanelLinkClick id c (w, e))) = targetClasses w
  /\ timers (fst (onPanelLinkClick id c (w, e))) = timers w.
Proof.
  unfold onPanelLinkClick.
  destruct (closestAnchor c) as [link|]; [|split; reflexivity].
  match goal with |- context [if ?b then (w, e) else _] => destruct b end;
    [split; reflexivity|].
  destruct (bool_decide (a_target link = Some "_blank")); split; reflexivity.
Qed.

(** A click inside the panel goes through the listeners of the panel
    and stops there. *)
Lemma inside_click_dispatch (cfg : Config) (id : string) (c : Click) (w : World) :
  insidePanel c = true ->
  dispatchClick cfg id c w
  = onPanelToggleClick cfg id c
      (onPanelStop (if hideOnClick cfg then onPanelLinkClick id c (w, freshEvent)
                    else (w, freshEvent)))
  /\ propagationStopped (snd (dispatchClick cfg id c w)) = true.
Proof.
  intros Hin.
  set (d1 := if hideOnClick cfg then onPanelLinkClick id c (w, freshEvent)
             else (w, freshEvent)).
  assert (Hstop : propagationStopped
                    (snd (onPanelToggleClick cfg id c (onPanelStop d1))) = true).
  { destruct d1 as [w1 e1]. unfold onPanelStop, onPanelToggleClick.
    destruct (closestToggle id c); reflexivity. }
  assert (Hd : dispatchClick cfg id c w
               = onPanelToggleClick cfg id c (onPanelStop d1)).
  { unfold dispatchClick. rewrite Hin. unfold panelClick. fold d1.
    now rewrite Hstop. }
  split; [exact Hd | now rewrite Hd].
Qed.

(** X7: a click inside the panel stays inside: its propagation is
    stopped, so the listeners of the body never see it; it schedules no
    cleanup; and it never shows the panel: the class list is left as it
    is, or loses [visibleClass] when the click is on an anchor to the
    panel id. *)
Theorem inside_click_contained (cfg : Config) (id : string) (c : Click) (w : World) :
  insidePanel c = true ->
  propagationStopped (snd (dispatchClick cfg id c w)) = true
  /\ timers (click cfg id c w) = timers w
  /\ targetClasses (click cfg id c w)
     = match closestToggle id c with
       | Some _ => remove (targetClasses w) (visibleClass cfg)
       | None => targetClasses w
       end
  /\ (visible cfg w = false -> visible cfg (click cfg id c w) = false).
Proof.
  intros Hin.
  set (d1 := if hideOnClick cfg then onPanelLinkClick id c (w, freshEvent)
             else (w, freshEvent)).
  assert (Hkeep : targetClasses (fst d1) = targetClasses w
                  /\ timers (fst d1) = timers w).
  { subst d1. destruct (hideOnClick cfg);
      [apply onPanelLinkClick_keeps | split; reflexivity]. }
  destruct (inside_click_dispatch cfg id c w Hin) as [Hd Hstop]. fold d1 in Hd.
  unfold click. rewrite Hd in *.
  destruct Hkeep as [Hclasses Htimers].
  assert (Hresult : targetClasses (fst (onPanelToggleClick cfg id c (onPanelStop d1)))
                    = match closestToggle id c with
                      | Some _ => remove (targetClasses w) (visibleClass cfg)
                      | None => targetClasses w
                      end
                    /\ timers (fst (onPanelToggleClick cfg id c (onPanelStop d1)))
                       = timers w).
  { destruct d1 as [w1 e1]. cbn [fst] in Hclasses, Htimers.
    unfold onPanelStop, onPanelToggleClick.
    destruct (closestToggle id c); cbn [fst targetClasses timers withClasses];
      rewrite ?Hclasses, ?Htimers; split; reflexivity. }
  destruct Hresult as [Hcls Htim].
  split; [exact Hstop|]. split; [exact Htim|]. split; [exact Hcls|].
  intros Hhidden. unfold visible in *. rewrite Hcls.
  destruct (closestToggle id c); [apply contains_remove | exact Hhidden].
Qed.

Lemma inside_click_contained_witness :
  propagationStopped
    (snd (dispatchClick navPanelConfig "navPanel" Samples.insideClick
            Samples.shownWorld)) = true
  /\ timers (click navPanelConfig "navPanel" Samples.insideClick Samples.shownWorld)
     = timers Samples.shownWorld
  /\ targetClasses
       (click navPanelConfig "navPanel" Samples.insideClick Samples.shownWorld)
     = match closestToggle "navPanel" Samples.insideClick with
       | Some _ => remove (targetClasses Samples.shownWorld)
                          (visibleClass navPanelConfig)
       | None => targetClasses Samples.shownWorld
       end
  /\ (visible navPanelConfig Samples.shownWorld = false ->
      visible navPanelConfig
        (click navPanelConfig "navPanel" Samples.insideClick Samples.shownWorld)
      = false).
Proof.
  apply (inside_click_contained navPanelConfig "navPanel" Samples.insideClick
           Samples.shownWorld).
  reflexivity.
Defined.

Lemma toggleClick_keeps_navigation (cfg : Config) (id : string) (c : Click)
    (d : Dispatch) :
  opened (fst (onPanelToggleClick cfg id c d)) = opened (fst d)
  /\ locationHref (fst (onPanelToggleClick cfg id c d)) = locationHref (fst d)
  /\ (defaultPrevented (snd d) = true ->
      defaultPrevented (snd (onPanelToggleClick cfg id c d)) = true).
Proof.
  destruct d as [w e]. unfold onPanelToggleClick.
  destruct (closestToggle id c); repeat split; auto.
Qed.

(** X8: with [hideOnClick], a click inside the panel on a link with a
    real destination (an href that is not empty, not a lone hash and not
    the anchor to the panel id) is taken over by the panel: the default
    action is prevented and the destination is opened in a new window
    when the target of the link is _blank, and assigned to the location
    otherwise. *)
Theorem panel_link_navigates (cfg : Config) (id : string) (c : Click)
    (link : Anchor) (href : string) (w : World) :
  hideOnClick cfg = true ->
  insidePanel c = true ->
  closestAnchor c = Some link ->
  a_href link = Some href ->
  href <> "" -> href <> "#" -> href <> "#" ++ id ->
  defaultPrevented (snd (dispatchClick cfg id c w)) = true
  /\ (a_target link = Some "_blank" ->
      opened (click cfg id c w) = (opened w ++ [href])%list
      /\ locationHref (click cfg id c w) = locationHref w)
  /\ (a_target link <> Some "_blank" ->
      locationHref (click cfg id c w) = Some href
      /\ opened (click cfg id c w) = opened w).
Proof.
  intros Hon Hin Hclosest Hhref Hne Hhash Hid.
  assert (Hlink : onPanelLinkClick id c (w, freshEvent)
                  = if bool_decide (a_target link = Some "_blank")
                    then (withOpened (opened w ++ [href]) w,
                          stopPropagation (preventDefault freshEvent))
                    else (withLocation href w,
                          stopPropagation (preventDefault freshEvent))).
  { unfold onPanelLinkClick. rewrite Hclosest, Hhref.
    change (default "" (Some href)) with href.
    apply truthy_true_iff in Hne. apply String.eqb_neq in Hhash, Hid.
    rewrite Hne, Hhash, Hid. cbn [negb orb].
    assert (Hempty : (href =? "") = false)
      by (apply String.eqb_neq; now apply truthy_true_iff).
    rewrite Hempty. reflexivity. }
  assert (Hd : dispatchClick cfg id c w
               = onPanelToggleClick cfg id c
                   (onPanelStop (onPanelLinkClick id c (w, freshEvent)))).
  { destruct (inside_click_dispatch cfg id c w Hin) as [Hd _].
    now rewrite Hon in Hd. }
  unfold click. rewrite Hd.
  destruct (toggleClick_keeps_navigation cfg id c
              (onPanelStop (onPanelLinkClick id c (w, freshEvent))))
    as (Hopened & Hlocation & Hprevented).
  rewrite Hopened, Hlocation. rewrite Hlink in *.
  destruct (bool_decide (a_target link = Some "_blank")) eqn:Hblank.
  - apply bool_decide_eq_true in Hblank.
    split; [now apply Hprevented|]. split; [intros _; split; reflexivity|].
    intros Hnot. contradiction.
  - apply bool_decide_eq_false in Hblank.
    split; [now apply Hprevented|]. split; [intros Hyes; contradiction|].
    intros _. split; reflexivity.
Qed.

Lemma panel_link_navigates_witness :
  defaultPrevented
    (snd (dispatchClick navPanelConfig "navPanel"
            {| insidePanel := true;
               anchorChain := [{| a_href := Some "blog/index.html";
                                  a_target := None |}] |}
            Samples.shownWorld)) = true
  /\ (@None string = Some "_blank" ->
      opened (click navPanelConfig "navPanel"
                {| insidePanel := true;
                   anchorChain := [{| a_href := Some "blog/index.html";
                                      a_target := None |}] |}
                Samples.shownWorld)
      = (opened Samples.shownWorld ++ ["blog/index.html"])%list
      /\ locationHref (click navPanelConfig "navPanel"
                {| insidePanel := true;
                   anchorChain := [{| a_href := Some "blog/index.html";
                                      a_target := None |}] |}
                Samples.shownWorld)
         = locationHref Samples.shownWorld)
  /\ (@None string <> Some "_blank" ->
      locationHref (click navPanelConfig "navPanel"
                {| insidePanel := true;
                   anchorChain := [{| a_href := Some "blog/index.html";
                                      a_target := None |}] |}
                Samples.shownWorld)
      = Some "blog/index.html"
      /\ opened (click navPanelConfig "navPanel"
                {| insidePanel := true;
                   anchorChain := [{| a_href := Some "blog/index.html";
                                      a_target := None |}] |}
                Samples.shownWorld)
         = opened Samples.shownWorld).
Proof.
  apply (panel_link_navigates navPanelConfig "navPanel"
           {| insidePanel := true;
              anchorChain := [{| a_href := Some "blog/index.html";
                                 a_target := None |}] |}
           {| a_href := Some "blog/index.html"; a_target := None |}
           "blog/index.html" Samples.shownWorld);
    solve [reflexivity | discriminate].
Defined.

(** X9: a swipe hides once: the touchmove that hides forgets the touch,
    and every touchmove after it leaves world and event as they are,
    until a touch starts again. *)
Theorem swipe_hides_once (cfg : Config) (g : Geometry) (t t' : Touch)
    (w : World) (e e' : Event) :
  snd (onTouchMove cfg g t (w, e)) = Some false ->
  touchPosX (fst (fst (onTouchMove cfg g t (w, e)))) = None
  /\ touchPosY (fst (fst (onTouchMove cfg g t (w, e)))) = None
  /\ onTouchMove cfg g t' (fst (fst (onTouchMove cfg g t (w, e))), e')
     = ((fst (fst (onTouchMove cfg g t (w, e))), e'), None).
Proof.
  intros Hhides.
  assert (Hforgot : touchPosX (fst (fst (onTouchMove cfg g t (w, e)))) = None
                    /\ touchPosY (fst (fst (onTouchMove cfg g t (w, e)))) = None).
  { revert Hhides. unfold onTouchMove.
    destruct (touchPosX w) as [x0|]; [|discriminate].
    destruct (touchPosY w) as [y0|]; [|discriminate].
    destruct (hideOnSwipe cfg && swipeResult (side cfg) (x0 - pageX t) (y0 - pageY t)).
    - intros _.
      destruct (hide_rest cfg None (withTouch None None w)) as (Hx & Hy & _).
      destruct (hide cfg None (withTouch None None w)) as [w' e0].
      cbn [fst] in *. split; assumption.
    - destruct (pastScrollBounds g w (y0 - pageY t)); discriminate. }
  destruct Hforgot as [Hx Hy]. split; [exact Hx|]. split; [exact Hy|].
  apply onTouchMove_untracked. now left.
Qed.

Lemma swipe_hides_once_witness :
  touchPosX (fst (fst (onTouchMove navPanelConfig Samples.panelGeometry
                         {| pageX := 60; pageY := 5 |}
                         (Samples.touchedWorld, freshEvent)))) = None
  /\ touchPosY (fst (fst (onTouchMove navPanelConfig Samples.panelGeometry
                            {| pageX := 60; pageY := 5 |}
                            (Samples.touchedWorld, freshEvent)))) = None
  /\ onTouchMove navPanelConfig Samples.panelGeometry {| pageX := 200; pageY := 5 |}
       (fst (fst (onTouchMove navPanelConfig Samples.panelGeometry
                    {| pageX := 60; pageY := 5 |}
                    (Samples.touchedWorld, freshEvent))), freshEvent)
     = ((fst (fst (onTouchMove navPanelConfig Samples.panelGeometry
                     {| pageX := 60; pageY := 5 |}
                     (Samples.touchedWorld, freshEvent))), freshEvent), None).
Proof.
  apply (swipe_hides_once navPanelConfig Samples.panelGeometry
           {| pageX := 60; pageY := 5 |} {| pageX := 200; pageY := 5 |}
           Samples.touchedWorld freshEvent freshEvent).
  reflexivity.
Defined.

(** X10: after [hide] on a visible panel with no timer pending, the
    timer that fires performs the cleanup the configuration asks for and
    no more: the scroll position of the panel is reset exactly when
    [resetScroll] is set, the forms exactly when [resetForms] is set; no
    timer is left and the panel stays hidden. *)
Theorem hide_then_cleanup (cfg : Config) (event : option Event) (w : World) :
  visible cfg w = true ->
  timers w = [] ->
  timers (fireTimer cfg (fst (hide cfg event w))) = []
  /\ visible cfg (fireTimer cfg (fst (hide cfg event w))) = false
  /\ scrollTop (fireTimer cfg (fst (hide cfg event w)))
     = (if resetScroll cfg then 0%Q else scrollTop w)
  /\ formResets (fireTimer cfg (fst (hide cfg event w)))
     = (if resetForms cfg then S (formResets w) else formResets w).
Proof.
  intros Hvisible Hnone.
  pose proof (contains_remove (targetClasses w) (visibleClass cfg)) as Hgone.
  unfold visible in *. unfold hide, fireTimer. rewrite Hvisible. cbn [negb fst].
  cbn [timers withTimers withClasses]. rewrite Hnone. cbn [app].
  unfold cleanup.
  destruct (resetScroll cfg), (resetForms cfg);
    cbn [timers targetClasses scrollTop formResets withTimers withClasses
         withScrollTop withFormResets];
    repeat split; try reflexivity; exact Hgone.
Qed.

Lemma hide_then_cleanup_witness :
  timers (fireTimer navPanelConfig (fst (hide navPanelConfig None Samples.shownWorld)))
  = []
  /\ visible navPanelConfig
       (fireTimer navPanelConfig (fst (hide navPanelConfig None Samples.shownWorld)))
     = false
  /\ scrollTop
       (fireTimer navPanelConfig (fst (hide navPanelConfig None Samples.shownWorld)))
     = (if resetScroll navPanelConfig then 0%Q else scrollTop Samples.shownWorld)
  /\ formResets
       (fireTimer navPanelConfig (fst (hide navPanelConfig None Samples.shownWorld)))
     = (if resetForms navPanelConfig then S (formResets Samples.shownWorld)
        else formResets Samples.shownWorld).
Proof.
  apply (hide_then_cleanup navPanelConfig None Samples.shownWorld); reflexivity.
Defined.

End PanelMore.

(** ** Scroll-spy: the markers follow the current section *)
Section Rendering.
Import JsString ScrollSpy Reading Shapes.

Variable nav : list NavAnchor.
Hypothesis fragments_scrolly :
  forall (a : NavAnchor) (s : string),
    In a nav -> nav_href a = "#" ++ s -> nav_scrolly a = true.

(** The mobile links of the page as built: none is marked. *)
Variable links : option (list MobileLink).
Hypothesis links_unmarked : option_map clearMobile links = links.

Lemma clearDesktop_markDesktop (id : option string) :
  clearDesktop nav (markDesktop nav id ∅) = ∅.
Proof.
  apply set_eq. intros p. split; [|intros H; now apply not_elem_of_empty in H].
  unfold clearDesktop. rewrite fold_remove_parents. intros [Hp Hnone].
  exfalso. unfold markDesktop in Hp.
  destruct id as [s|]; [|now apply not_elem_of_empty in Hp].
  destruct (truthy s); [|now apply not_elem_of_empty in Hp].
  destruct (findAnchor nav s) as [a|] eqn:Hfind;
    [|now apply not_elem_of_empty in Hp].
  rewrite union_empty_l_L in Hp. apply elem_of_singleton in Hp. subst p.
  destruct (findAnchor_scrolly nav fragments_scrolly s a Hfind) as [Hin Hscrolly].
  apply (Hnone a); [|reflexivity]. apply List.filter_In. now split.
Qed.

Lemma clearMobile_markFirst (href : string) (ls : list MobileLink) :
  clearMobile (markFirst href ls) = clearMobile ls.
Proof.
  induction ls as [|l ls IH]; [reflexivity|].
  unfold clearMobile in *. cbn [markFirst]. case_bool_decide; cbn [map m_href];
    [reflexivity | now rewrite IH].
Qed.

Lemma clearMobile_markMobile (id : option string) (ls : list MobileLink) :
  clearMobile (markMobile id ls) = clearMobile ls.
Proof.
  unfold markMobile. destruct id as [s|]; [|reflexivity].
  destruct (truthy s); [apply clearMobile_markFirst | reflexivity].
Qed.

Lemma update_renders (id : option string) (st : State) :
  dom st = renderMarks nav links (currentSection st) ->
  dom (updateCurrentSection nav id st)
  = renderMarks nav links (currentSection (updateCurrentSection nav id st)).
Proof.
  intros Hst. rewrite currentSection_update. unfold updateCurrentSection.
  case_bool_decide as Hsame; [now rewrite Hst, Hsame|].
  cbn [dom]. rewrite Hst. unfold renderMarks.
  cbn [currentParents mobileLinks]. rewrite clearDesktop_markDesktop.
  f_equal. rewrite <- links_unmarked at 2.
  destruct links as [ls|]; cbn [option_map]; [|reflexivity].
  now rewrite clearMobile_markMobile.
Qed.

Lemma spy_renders (sections : list PageSection) (evs : list Scroll) :
  dom (spy nav sections evs (renderMarks nav links None))
  = renderMarks nav links
      (currentSection (spy nav sections evs (renderMarks nav links None))).
Proof.
  unfold spy.
  destruct ((length sections =? 0)%nat
            || (length (List.filter nav_scrolly nav) =? 0)%nat); [reflexivity|].
  assert (Hgen : forall st, dom st = renderMarks nav links (currentSection st) ->
            dom (fold_left (fun st ev => onScroll nav sections ev st) evs st)
            = renderMarks nav links
                (currentSection
                   (fold_left (fun st ev => onScroll nav sections ev st) evs st))).
  { induction evs as [|ev evs IH]; intros st Hst; [exact Hst|].
    cbn [fold_left]. apply IH. unfold onScroll. now apply update_renders. }
  now apply Hgen.
Qed.

End Rendering.

Section HomepageRendering.
Import JsString SiteConfig ScrollSpy Reading Shapes.

Lemma mobileLinksOf_unmarked (nav : list NavAnchor) :
  clearMobile (mobileLinksOf nav) = mobileLinksOf nav.
Proof.
  unfold clearMobile, mobileLinksOf. rewrite List.map_map. reflexivity.
Qed.

Lemma fragment_eqb (name s : string) :
  String.eqb (String "#" name) ("#" ++ s) = String.eqb s name.
Proof.
  change ("#" ++ s) with (String "#" s). cbn [String.eqb Ascii.eqb].
  rewrite String.eqb_sym. reflexivity.
Qed.

Lemma homepage_markDesktop (loc : Location) (id : option string) :
  markDesktop (homepageNav (getBasePath loc)) id ∅ = homepageMarks id.
Proof.
  unfold markDesktop, homepageMarks. destruct id as [s|]; [|reflexivity].
  destruct (truthy s) eqn:Hs.
  - unfold findAnchor, homepageNav, navAnchors. cbn [List.find nav_href].
    assert (Hlogo : (homeLink (getBasePath loc) =? "#" ++ s) = false)
      by (apply String.eqb_neq, homeLink_not_fragment).
    rewrite Hlogo. cbn [homepageItems itemAnchors navItem item_href item_scrolly
                        List.find nav_href].
    change "#about" with (String "#" "about").
    change "#contact" with (String "#" "contact").
    rewrite !fragment_eqb.
    destruct (s =? "about") eqn:Habout; [now rewrite union_empty_l_L|].
    assert (Hservices : ("services/" =? "#" ++ s) = false) by reflexivity.
    rewrite Hservices.
    destruct (s =? "contact") eqn:Hcontact; [now rewrite union_empty_l_L|].
    reflexivity.
  - apply truthy_false_iff in Hs. subst s. reflexivity.
Qed.

Lemma homepageDom_render (basePath : string) (hasNavPanel : bool)
    (nav := homepageNav basePath) :
  homepageDom basePath hasNavPanel
  = renderMarks nav
      (if hasNavPanel then Some (mobileLinksOf nav) else None) None.
Proof.
  unfold homepageDom, renderMarks. cbn [markDesktop markMobile].
  assert (Hnone : itemCurrents 1 homepageItems = ∅)
    by (cbn; now rewrite !union_empty_l_L).
  rewrite Hnone. now destruct hasNavPanel.
Qed.


(** X12: once the scroll-spy is installed (the page has a section), the
    current section after any history of scroll events is the section
    found at the last event; what was scrolled before does not matter. *)
Theorem spy_follows_last_scroll
    (loc : Location) (d : Dom) (s : PageSection) (below : list PageSection)
    (evs : list Scroll) (ev : Scroll) :
  currentSection (spy (homepageNav (getBasePath loc)) (s :: below)
                      (evs ++ [ev]) d)
  = lastMatch (scrollPos ev) (s :: below).
Proof.
  unfold spy. cbn [length Nat.eqb orb homepageNav navAnchors List.filter
                   nav_scrolly homepageItems itemAnchors navItem item_scrolly].
  rewrite fold_left_app. cbn [fold_left]. unfold onScroll.
  rewrite currentSection_update. apply findSection_lastMatch.
Qed.

(** X13: a scroll event whose probe stays in the same section as the
    event before writes nothing: the state after it, document included,
    is the state before it. *)
Theorem scroll_within_section_writes_nothing
    (nav : list NavAnchor) (sections : list PageSection) (ev1 ev2 : Scroll)
    (st : State) :
  lastMatch (scrollPos ev2) sections = lastMatch (scrollPos ev1) sections ->
  onScroll nav sections ev2 (onScroll nav sections ev1 st)
  = onScroll nav sections ev1 st.
Proof.
  intros Hsame. set (st1 := onScroll nav sections ev1 st).
  assert (Hcur : currentSection st1 = findSection (scrollPos ev2) sections).
  { subst st1. unfold onScroll. rewrite currentSection_update.
    rewrite !findSection_lastMatch. now symmetry. }
  unfold onScroll at 1. unfold updateCurrentSection.
  rewrite bool_decide_eq_true_2 by exact Hcur. reflexivity.
Qed.

Lemma scroll_within_section_writes_nothing_witness :
  onScroll (homepageNav "") Samples.overlapping
    {| scrollY := 40; innerHeight := 100 |}
    (onScroll (homepageNav "") Samples.overlapping
       {| scrollY := 30; innerHeight := 100 |}
       {| currentSection := None; dom := homepageDom "" true |})
  = onScroll (homepageNav "") Samples.overlapping
      {| scrollY := 30; innerHeight := 100 |}
      {| currentSection := None; dom := homepageDom "" true |}.
Proof.
  apply (scroll_within_section_writes_nothing (homepageNav "") Samples.overlapping
           {| scrollY := 30; innerHeight := 100 |}
           {| scrollY := 40; innerHeight := 100 |}
           {| currentSection := None; dom := homepageDom "" true |}).
  vm_compute. reflexivity.
Defined.

End HomepageRendering.

(** ** The nav of the other pages *)
Section OtherPages.
Import JsString SiteConfig ScrollSpy NavPages Shapes.

(** X14: the nav of a page marks at most one item as current: none on
    the homepage; elsewhere the item of Services on a services page, and
    the item of Blog on a blog index or blog post page that is not also a
    services page. *)
Theorem nav_marks_one_item (basePath : string) (pt : PageType) :
  length (List.filter item_current (navItems basePath pt)) <= 1
  /\ map item_current (navItems basePath pt)
     = if isHomepage pt then [false; false; false; false]
       else [false; isServicesPage pt; false;
             negb (isServicesPage pt) && (isBlogIndex pt || isBlogPost pt)].
Proof.
  unfold navItems, currentPage.
  destruct pt as [home post index services].
  cbn [isHomepage isBlogPost isBlogIndex isServicesPage].
  destruct home, post, index, services;
    (split; [vm_compute; lia | vm_compute; reflexivity]).
Qed.

Local Abbreviation unmarked href := {| m_href := Some href; m_current := false |}.

Lemma markByKeyword_hrefs (keyword : string) (hrefs : list string) :
  markByKeyword keyword (map (fun href => unmarked href) hrefs)
  = (map (fun href => {| m_href := Some href;
                         m_current := includes keyword href |}) hrefs, true).
Proof.
  induction hrefs as [|href hrefs IH]; [reflexivity|].
  cbn [map markByKeyword m_href]. rewrite IH.
  destruct (includes keyword href); reflexivity.
Qed.

Lemma truthy_app_r (s t : string) : truthy t = true -> truthy (s ++ t) = true.
Proof.
  intros Ht. destruct s as [|c s]; [exact Ht | reflexivity].
Qed.

Lemma ups_app (n : nat) (tail : string) :
  ups (S n) ++ tail = String "." (String "." (String "/" (ups n ++ tail))).
Proof. rewrite ups_succ, append_assoc. reflexivity. Qed.

(** The steps up in front of an href hold neither keyword. *)
Lemma includes_ups (keyword : string) (n : nat) (tail : string) :
  keyword = "blog" \/ keyword = "services" ->
  includes keyword (ups n ++ tail) = includes keyword tail.
Proof.
  intros Hkey. induction n as [|n IH]; [reflexivity|].
  rewrite ups_app. destruct Hkey as [-> | ->]; cbn [includes String.prefix];
    cbn; exact IH.
Qed.

Lemma homeLink_ups (n : nat) : homeLink (ups n) = ups n ++ "index.html".
Proof. destruct n; [reflexivity|]. unfold homeLink. now rewrite ups_succ. Qed.

Lemma pageMobileLinks_other (n : nat) (pt : PageType) :
  isHomepage pt = false ->
  pageMobileLinks (ups n) pt
  = map (fun href => unmarked href)
      [ ups n ++ "index.html"; ups n ++ "index.html#about"; ups n ++ "services/";
        ups n ++ "index.html#contact"; blogIndexPath (ups n) pt ].
Proof.
  intros Hother. unfold pageMobileLinks, navItems. rewrite Hother.
  unfold navAnchors, mobileLinksOf.
  cbn [itemAnchors navItem item_href item_scrolly map nav_href].
  rewrite homeLink_ups, !truthy_app_r by reflexivity.
  assert (Hblog : truthy (blogIndexPath (ups n) pt) = true).
  { unfold blogIndexPath. destruct (isBlogPost pt); [reflexivity|].
    destruct (isBlogIndex pt && negb (ups n =? "../"));
      now apply truthy_app_r. }
  rewrite Hblog. reflexivity.
Qed.

Lemma includes_blogIndexPath (n : nat) (pt : PageType) :
  includes "blog" (blogIndexPath (ups n) pt) = negb (isBlogPost pt)
  /\ includes "services" (blogIndexPath (ups n) pt) = false.
Proof.
  unfold blogIndexPath. destruct (isBlogPost pt); [split; reflexivity|].
  destruct (isBlogIndex pt && negb (ups n =? "../"));
    rewrite !includes_ups by auto; split; reflexivity.
Qed.

(** X15: on a page built by the scripts, marking the current page in the
    mobile menu never fails on a link without href, changes no href, and
    marks at most one link: the link to the services on a services page,
    the link to the blog index on a blog index page, and no link on a
    blog post page, whose link to the blog index is ../../index.html and
    does not hold the keyword. *)
Theorem mobile_menu_marks_at_most_one (loc : Location) (pt : PageType) :
  exists marked : list MobileLink,
    markCurrentPage pt (Some (pageMobileLinks (getBasePath loc) pt))
    = (Some marked, true)
    /\ map m_href marked = map m_href (pageMobileLinks (getBasePath loc) pt)
    /\ length (List.filter m_current marked) <= 1
    /\ length (List.filter m_current marked)
       = if isHomepage pt then 0
         else if isBlogIndex pt || isBlogPost pt
              then (if isBlogPost pt then 0 else 1)
              else if isServicesPage pt then 1 else 0.
Proof.
  destruct (getBasePath_is_ups loc) as [n ->].
  unfold markCurrentPage. destruct (isHomepage pt) eqn:Hhome.
  - exists (pageMobileLinks (ups n) pt). repeat split.
    + unfold pageMobileLinks, mobileLinksOf. rewrite filter_none; [cbn; lia|].
      intros l Hl. apply List.in_map_iff in Hl as (a & <- & _). reflexivity.
    + unfold pageMobileLinks, mobileLinksOf. rewrite filter_none; [reflexivity|].
      intros l Hl. apply List.in_map_iff in Hl as (a & <- & _). reflexivity.
  - rewrite (pageMobileLinks_other n pt Hhome).
    destruct (includes_blogIndexPath n pt) as [Hblog Hservices].
    destruct (isBlogIndex pt || isBlogPost pt) eqn:Hblogpage;
      [|destruct (isServicesPage pt) eqn:Hservicespage].
    + rewrite markByKeyword_hrefs. eexists. split; [reflexivity|].
      cbn [map m_href List.filter m_current].
      rewrite !includes_ups, Hblog by auto.
      split; [reflexivity|]. cbn. destruct (isBlogPost pt); cbn; split; lia.
    + rewrite markByKeyword_hrefs. eexists. split; [reflexivity|].
      cbn [map m_href List.filter m_current].
      rewrite !includes_ups, Hservices by auto.
      split; [reflexivity|]. cbn. split; lia.
    + eexists. split; [reflexivity|]. split; [reflexivity|]. cbn. split; lia.
Qed.

Example blog_post_marks_none :
  fst (markCurrentPage
         {| isHomepage := false; isBlogPost := true; isBlogIndex := false;
            isServicesPage := false |}
         (Some (pageMobileLinks "../../../"
                  {| isHomepage := false; isBlogPost := true; isBlogIndex := false;
                     isServicesPage := false |})))
  = Some (pageMobileLinks "../../../"
            {| isHomepage := false; isBlogPost := true; isBlogIndex := false;
               isServicesPage := false |}).
Proof. reflexivity. Qed.

End OtherPages.

(** ** [escapeHtml] and [navList]: what escaping keeps *)
Section EscapingMore.
Import JsString MBUtil Reading Shapes.

Lemma length_append (s t : string) :
  String.length (s ++ t) = String.length s + String.length t.
Proof.
  induction s as [|c s IH]; [reflexivity|].
  rewrite append_cons. cbn [String.length]. now rewrite IH.
Qed.

Lemma escapeChar_plain (c : ascii) :
  isSpecial c = false -> escapeChar c = String c "".
Proof.
  unfold isSpecial, escapeChar. intros H.
  repeat (apply orb_false_iff in H as [H ?]).
  now rewrite H, H0, H1, H2, H3.
Qed.

Lemma escapeChar_longer (c : ascii) :
  isSpecial c = true -> 1 < String.length (escapeChar c).
Proof.
  unfold isSpecial, escapeChar.
  destruct (Ascii.eqb c "&"); [cbn; lia|].
  destruct (Ascii.eqb c "<"); [cbn; lia|].
  destruct (Ascii.eqb c ">"); [cbn; lia|].
  destruct (Ascii.eqb c dquote); [cbn; lia|].
  destruct (Ascii.eqb c squote); [cbn; lia|].
  discriminate.
Qed.

Lemma escapeEach_length (s : string) :
  String.length s <= String.length (escapeEach s)
  /\ (hasSpecial s = true -> String.length s < String.length (escapeEach s)).
Proof.
  induction s as [|c s [IH1 IH2]]; [split; [reflexivity | discriminate]|].
  cbn [escapeEach hasSpecial String.length]. rewrite length_append.
  destruct (isSpecial c) eqn:Hc; cbn [orb].
  - pose proof (escapeChar_longer c Hc). split; [lia | intros _; lia].
  - rewrite (escapeChar_plain c Hc). cbn [String.length].
    split; [lia | intros H; specialize (IH2 H); lia].
Qed.

Lemma escapeEach_plain (s : string) : hasSpecial s = false -> escapeEach s = s.
Proof.
  induction s as [|c s IH]; [reflexivity|].
  cbn [hasSpecial escapeEach]. intros H. apply orb_false_iff in H as [Hc Hs].
  now rewrite (escapeChar_plain c Hc), (IH Hs).
Qed.

(** X16: [escapeHtml] leaves a string as it is exactly when the string
    holds none of the five characters; it never makes a string shorter. *)
Theorem escapeHtml_fixes_plain_text (s : string) :
  (escapeHtml (JsStr s) = s <-> hasSpecial s = false)
  /\ String.length s <= String.length (escapeHtml (JsStr s)).
Proof.
  rewrite escapeHtml_string. destruct (escapeEach_length s) as [Hle Hlt].
  split; [|exact Hle]. split.
  - intros Hfix. destruct (hasSpecial s); [|reflexivity].
    specialize (Hlt eq_refl). rewrite Hfix in Hlt. lia.
  - apply escapeEach_plain.
Qed.

Ltac classify c E1 E2 E3 E4 E5 :=
  destruct (Ascii.eqb c "&") eqn:E1;
  [apply Ascii.eqb_eq in E1; subst c
  |destruct (Ascii.eqb c "<") eqn:E2;
   [apply Ascii.eqb_eq in E2; subst c
   |destruct (Ascii.eqb c ">") eqn:E3;
    [apply Ascii.eqb_eq in E3; subst c
    |destruct (Ascii.eqb c dquote) eqn:E4;
     [apply Ascii.eqb_eq in E4; subst c
     |destruct (Ascii.eqb c squote) eqn:E5;
      [apply Ascii.eqb_eq in E5; subst c|]]]]].

Ltac absurd_eqb :=
  match goal with
  | E : Ascii.eqb ?c ?c = false |- _ => rewrite Ascii.eqb_refl in E; discriminate E
  end.

(** The escaped form of a character in front of a string tells the
    character and the string. *)
Lemma escapeChar_cancel (c d : ascii) (x y : string) :
  escapeChar c ++ x = escapeChar d ++ y -> c = d /\ x = y.
Proof.
  unfold escapeChar.
  classify c C1 C2 C3 C4 C5; classify d D1 D2 D3 D4 D5;
    intros H; vm_compute in H; try discriminate H;
    injection H as H; subst;
    try (split; reflexivity); try absurd_eqb;
    try (vm_compute in C1; discriminate C1);
    try (vm_compute in D1; discriminate D1).
  all: try (split; [reflexivity | assumption]).
  all: try (split; congruence).
Qed.

Lemma escapeEach_injective (s t : string) :
  escapeEach s = escapeEach t -> s = t.
Proof.
  revert t. induction s as [|c s IH]; intros [|d t] H.
  - reflexivity.
  - exfalso. cbn [escapeEach] in H.
    pose proof (f_equal String.length H) as Hlen.
    rewrite length_append in Hlen. cbn [String.length] in Hlen.
    assert (0 < String.length (escapeChar d)).
    { unfold escapeChar. classify d D1 D2 D3 D4 D5; cbn; lia. }
    lia.
  - exfalso. cbn [escapeEach] in H.
    pose proof (f_equal String.length H) as Hlen.
    rewrite length_append in Hlen. cbn [String.length] in Hlen.
    assert (0 < String.length (escapeChar c)).
    { unfold escapeChar. classify c C1 C2 C3 C4 C5; cbn; lia. }
    lia.
  - cbn [escapeEach] in H. apply escapeChar_cancel in H as [-> H].
    now rewrite (IH t H).
Qed.

(** X17: [escapeHtml] loses nothing: two strings with the same escaped
    form are the same string. *)
Theorem escapeHtml_injective (s t : string) :
  escapeHtml (JsStr s) = escapeHtml (JsStr t) -> s = t.
Proof. rewrite !escapeHtml_string. apply escapeEach_injective. Qed.

Lemma escapeHtml_injective_witness : "a<b" = "a<b".
Proof. apply (escapeHtml_injective "a<b" "a<b"). reflexivity. Defined.

(** X18: the markup of a list of links is the markup of its parts put
    together: [navList] of two lists in a row is the concatenation of
    their markups, and the markup of no link is the empty string. *)
Theorem navList_app (front back : list NavLink) :
  navList (front ++ back) = navList front ++ navList back
  /\ navList [] = "".
Proof.
  split; [|reflexivity]. unfold navList.
  induction front as [|link front IH]; [reflexivity|].
  cbn [app map]. rewrite !concat_empty_cons, IH, append_assoc. reflexivity.
Qed.

(** X19: the double quotes in the markup of [navList] are those that
    delimit attribute values, two for each attribute written: the two
    class attributes of every link, the target and the href of the links
    that have one. No attribute value or text adds a quote. *)
Theorem navList_quotes (links : list NavLink) :
  countChar dquote (navList links)
  = 4 * length links
    + 2 * length (List.filter (fun l => truthy (orEmpty (link_target l))) links)
    + 2 * length (List.filter (fun l => truthy (orEmpty (link_href l))) links).
Proof.
  unfold navList. induction links as [|link links IH]; [reflexivity|].
  cbn [map List.filter]. rewrite concat_empty_cons, countChar_app, IH.
  rewrite linkMarkup_quotes.
  destruct (truthy (orEmpty (link_target link)));
    destruct (truthy (orEmpty (link_href link))); cbn [length]; lia.
Qed.

End EscapingMore.

(** ** Structured data: the diagnostic *)
Section StructuredDataMore.
Import JsString BlogMeta.

Lemma snoc_not_same {A : Type} (l : list A) (x : A) : (l ++ [x])%list <> l.
Proof.
  intros H. apply (f_equal (@length A)) in H.
  rewrite length_app in H. cbn [length] in H. lia.
Qed.

(** X20: on a page with the article and the placeholder, the handler
    logs its diagnostic exactly when it emits no block, that is exactly
    when the headline or the publication date is missing or empty: then
    the console has one more line and the placeholder is as before;
    otherwise the console is as before. The article is never changed and
    the children the placeholder already had are kept in front. *)
Theorem diagnostic_iff_no_block (g : Globals) (art : Dataset)
    (children : list Script) (log : list string) :
  (console (onDOMContentLoaded g
     {| article := Some art; placeholder := Some children; console := log |})
   <> log
   <-> present (headline art) = false \/ present (datePublished art) = false)
  /\ (exists lines,
        console (onDOMContentLoaded g
          {| article := Some art; placeholder := Some children; console := log |})
        = (log ++ lines)%list
        /\ length lines <= 1)
  /\ (exists added,
        placeholder (onDOMContentLoaded g
          {| article := Some art; placeholder := Some children; console := log |})
        = Some (children ++ added)%list
        /\ length added + length
             (console (onDOMContentLoaded g
                {| article := Some art; placeholder := Some children;
                   console := log |}))
           = S (length log))
  /\ article (onDOMContentLoaded g
       {| article := Some art; placeholder := Some children; console := log |})
     = Some art.
Proof.
  pose proof (structuredData_some_iff g art) as Hsome.
  unfold onDOMContentLoaded. cbn [article placeholder console].
  destruct (structuredData g art) as [data|] eqn:Hdata;
    cbn [article placeholder console].
  - assert (Hboth : present (headline art) = true
                    /\ present (datePublished art) = true)
      by (apply Hsome; now exists data).
    destruct Hboth as [H1 H2]. split; [|split; [|split]].
    + split; [intros Hne; now contradiction Hne|].
      intros [H|H]; congruence.
    + exists []. split; [now rewrite app_nil_r | cbn; lia].
    + eexists. split; [reflexivity | cbn; lia].
    + reflexivity.
  - split; [|split; [|split]].
    + split; [|intros _; apply snoc_not_same].
      intros _. destruct (present (headline art)) eqn:H1; [|now left].
      destruct (present (datePublished art)) eqn:H2; [|now right].
      exfalso. destruct (proj2 Hsome (conj eq_refl eq_refl)) as [data Habs].
      discriminate Habs.
    + eexists. split; [reflexivity | cbn; lia].
    + exists []. split; [now rewrite app_nil_r|].
      rewrite length_app. cbn [length]. lia.
    + reflexivity.
Qed.

End StructuredDataMore.
